(** * zenroomjs: the chainable wrapper around [zenroom_exec]

    A shallow embedding of [src/wrapper.js].  The wrapper keeps one
    mutable record ([self]), writes three callback slots on the
    Emscripten binding ([C.print], [C.exec_ok], [C.exec_error]) and
    issues one [C.ccall] per [exec()].

    Layout of the development:
    - [JS]      : the JavaScript values the wrapper handles, truthiness,
                  [||], default parameters, [JSON.stringify] (with a
                  reader of the texts it writes), [Object.assign];
    - [Self], [Binding], [world] : the closure variable [self], the
                  imported binding [C], and the log of foreign calls;
    - the methods of the wrapper, in a small state monad, under the
      names they have in the source;
    - traces of method calls and the properties of the wrapper. *)

From Stdlib Require Import ZArith Ascii String DecimalString DecimalN DecimalPos Lia.
From stdpp Require Import base option list strings gmap.

Set Warnings "-register-all".

Local Open Scope string_scope.

(* ===================================================================== *)
(** ** JavaScript values *)
(* ===================================================================== *)

Module JS.

(** Function values.  The wrapper creates four closures of its own; every
    other function comes from the caller and is identified by a tag.  The
    functions of the model are run for what they do: a call of one that
    returns, returns [undefined]. *)
Inductive closure : Type :=
  | ConsoleLogArrow              (* text => console.log(text) *)
  | EmptyArrow                   (* () => {} *)
  | NewFunction                  (* new Function *)
  | SelfPrintArrow               (* text => self.print(text) *)
  | Host (id : nat).             (* a function supplied by the caller *)

(** Values.  [JNum n] is the Number value of the integer [n], that is the
    double nearest to it; strings are byte strings; an object is the list
    of its own enumerable properties in enumeration order.  Values are
    finite trees: there is no cyclic object. *)
Inductive jsval : Type :=
  | JUndefined
  | JNull
  | JBool (b : bool)
  | JNum (n : Z)
  | JString (s : string)
  | JFun (c : closure)
  | JArray (elems : list jsval)
  | JObject (props : list (string * jsval)).

(** ToBoolean *)
Definition truthy (v : jsval) : bool :=
  match v with
  | JUndefined | JNull => false
  | JBool b => b
  | JNum n => negb (n =? 0)%Z
  | JString EmptyString => false
  | JString (String _ _) => true
  | JFun _ | JArray _ | JObject _ => true
  end.

(** [a || b] *)
Definition or (a b : jsval) : jsval := if truthy a then a else b.

(** A parameter declared [p = d] receives [d] exactly when the argument is
    [undefined]. *)
Definition default_param (d arg : jsval) : jsval :=
  match arg with
  | JUndefined => d
  | _ => arg
  end.

(** *** Quoting a string *)

Definition dquote : ascii := "034"%char.
Definition backslash : ascii := "092"%char.

Definition hex_digit (n : nat) : ascii :=
  match n with
  | 0 => "0" | 1 => "1" | 2 => "2" | 3 => "3" | 4 => "4" | 5 => "5"
  | 6 => "6" | 7 => "7" | 8 => "8" | 9 => "9" | 10 => "a" | 11 => "b"
  | 12 => "c" | 13 => "d" | 14 => "e" | _ => "f"
  end%char.

Definition esc (c : ascii) : string := String backslash (String c EmptyString).

Definition quote_char (c : ascii) : string :=
  let n := nat_of_ascii c in
  if decide (n = 8) then esc "b"
  else if decide (n = 9) then esc "t"
  else if decide (n = 10) then esc "n"
  else if decide (n = 12) then esc "f"
  else if decide (n = 13) then esc "r"
  else if decide (n = 34) then esc dquote
  else if decide (n = 92) then esc backslash
  else if decide (n < 32) then
    String backslash
      (String "u" (String "0" (String "0"
         (String (hex_digit (n / 16)) (String (hex_digit (n mod 16)) EmptyString)))))
  else String c EmptyString.

Fixpoint quote_body (s : string) : string :=
  match s with
  | EmptyString => EmptyString
  | String c r => quote_char c +:+ quote_body r
  end.

Definition QuoteJSONString (s : string) : string :=
  String dquote (quote_body s +:+ String dquote EmptyString).

(** *** Number::toString, for the Number value of an integer *)

Definition digits (n : Z) : string := NilZero.string_of_uint (N.to_uint (Z.to_N n)).

(** The double nearest to [a >= 0] (ties to even, on 53 bits), as the
    integer it is; [None] when it is infinite. *)
Definition round_to_double (a : Z) : option Z :=
  if (a <? 2 ^ 53)%Z then Some a
  else
    let shift := (Z.log2 a - 52)%Z in
    let q := Z.shiftr a shift in
    let r := (a - Z.shiftl q shift)%Z in
    let half := (2 ^ (shift - 1))%Z in
    let q' := if (half <? r)%Z || ((r =? half)%Z && Z.odd q) then (q + 1)%Z else q in
    let x := Z.shiftl q' shift in
    if (x <? 2 ^ 1024)%Z then Some x else None.

(** The distance from the double [x >= 2^53] to the next double above and
    below. *)
Definition gap_above (x : Z) : Z := (2 ^ (Z.log2 x - 52))%Z.
Definition gap_below (x : Z) : Z :=
  if (x =? 2 ^ Z.log2 x)%Z then (gap_above x / 2)%Z else gap_above x.

(** Whether the integer [c] rounds to the double [x]. *)
Definition rounds_to (x c : Z) : bool :=
  let lo := (2 * x - gap_below x)%Z in
  let hi := (2 * x + gap_above x)%Z in
  if Z.even (x / gap_above x)
  then (lo <=? 2 * c)%Z && (2 * c <=? hi)%Z
  else (lo <? 2 * c)%Z && (2 * c <? hi)%Z.

(** The decimal with the fewest significant digits [k] that rounds to [x],
    the nearest to [x] when there are two, the even one on a tie; [N] is
    the number of digits of [x]. *)
Fixpoint shortest (fuel : nat) (k : Z) (x N : Z) : Z :=
  match fuel with
  | 0 => x
  | S fuel =>
      if (N <=? k)%Z then x
      else
        let p := (10 ^ (N - k))%Z in
        let c1 := (x / p * p)%Z in
        let c2 := (c1 + p)%Z in
        match rounds_to x c1, rounds_to x c2 with
        | true, true =>
            if (x - c1 <? c2 - x)%Z then c1
            else if (c2 - x <? x - c1)%Z then c2
            else if Z.even (x / p) then c1 else c2
        | true, false => c1
        | false, true => c2
        | false, false => shortest fuel (k + 1)%Z x N
        end
  end.

Definition shortest_decimal (x : Z) : Z :=
  if (x <? 2 ^ 53)%Z then x
  else let N := Z.of_nat (String.length (digits x)) in
       shortest (Z.to_nat N) 1 x N.

Fixpoint strip_zeros (s : list ascii) : list ascii :=
  match s with
  | c :: r => if Ascii.eqb c "0" then strip_zeros r else s
  | [] => []
  end.

(** The digits of [c] without its trailing zeros. *)
Definition significand (c : Z) : string :=
  string_of_list_ascii (rev (strip_zeros (rev (list_ascii_of_string (digits c))))).

(** Below [10^21] all the digits, from there on the exponent form. *)
Definition positive_to_string (x : Z) : string :=
  let c := shortest_decimal x in
  if (c <? 10 ^ 21)%Z then digits c
  else
    let e := digits (Z.of_nat (String.length (digits c) - 1)) in
    match significand c with
    | String d EmptyString => String d ("e+" +:+ e)
    | String d r => String d ("." +:+ r +:+ "e+" +:+ e)
    | EmptyString => EmptyString
    end.

Definition finite (n : Z) : bool :=
  match round_to_double (Z.abs n) with
  | Some _ => true
  | None => false
  end.

Definition number_to_string (n : Z) : string :=
  match round_to_double (Z.abs n) with
  | Some x => if (n <? 0)%Z then "-" +:+ positive_to_string x else positive_to_string x
  | None => if (n <? 0)%Z then "-Infinity" else "Infinity"
  end.

(** *** JSON.stringify (one argument) *)

(** [o.k] for an object given by its properties. *)
Fixpoint property (k : string) (props : list (string * jsval)) : option jsval :=
  match props with
  | [] => None
  | (k', x) :: rest =>
      match property k rest with
      | Some y => Some y
      | None => if decide (k' = k) then Some x else None
      end
  end.

(** Whether serialization calls [o.toJSON]: it does when that property is
    a function. *)
Definition calls_toJSON (props : list (string * jsval)) : bool :=
  match property "toJSON" props with
  | Some (JFun _) => true
  | _ => false
  end.

(** SerializeJSONProperty: [None] is [undefined].  An object with a
    [toJSON] method is replaced by what the call returns, [undefined].  A
    number that is not finite is written [null].  In an array a value
    without a serialization becomes [null]; in an object its property is
    left out.  Serialization throws on a cyclic object, on a BigInt and
    when a [toJSON] method throws: none of these is a value of [jsval]. *)
Fixpoint serialize (v : jsval) : option string :=
  match v with
  | JUndefined => None
  | JFun _ => None
  | JNull => Some "null"
  | JBool b => Some (if b then "true" else "false")
  | JNum n => Some (if finite n then number_to_string n else "null")
  | JString s => Some (QuoteJSONString s)
  | JArray elems =>
      Some ("[" +:+
            String.concat "," (map (fun x => default "null" (serialize x)) elems)
            +:+ "]")
  | JObject props =>
      if calls_toJSON props then None
      else
        Some ("{" +:+
              String.concat ","
                (omap (fun '(k, x) =>
                         match serialize x with
                         | Some s => Some (QuoteJSONString k +:+ ":" +:+ s)
                         | None => None
                         end) props)
              +:+ "}")
  end.

Definition JSON_stringify (v : jsval) : jsval :=
  match serialize v with
  | Some s => JString s
  | None => JUndefined
  end.

(** *** Reading a compact JSON text back

    A reader of the texts that [JSON.stringify] writes for data: no
    insignificant white space, integral numbers, byte strings; the
    properties of an object are returned in the order of the text. *)

Definition is_digit (c : ascii) : bool :=
  (48 <=? nat_of_ascii c)%nat && (nat_of_ascii c <=? 57)%nat.

Fixpoint take_digits (s : string) : string * string :=
  match s with
  | String c r =>
      if is_digit c
      then let (d, rest) := take_digits r in (String c d, rest)
      else (EmptyString, s)
  | EmptyString => (EmptyString, EmptyString)
  end.

(** A fraction or an exponent follows. *)
Definition starts_fraction (s : string) : bool :=
  match s with
  | String c _ => Ascii.eqb c "." || Ascii.eqb c "e" || Ascii.eqb c "E"
  | EmptyString => false
  end.

Definition leading_zero (ds : string) : bool :=
  match ds with
  | String c (String _ _) => Ascii.eqb c "0"
  | _ => false
  end.

Definition read_natural (s : string) : option (Z * string) :=
  let (ds, rest) := take_digits s in
  if starts_fraction rest || leading_zero ds then None
  else match NilZero.uint_of_string ds with
       | Some u => Some (Z.of_uint u, rest)
       | None => None
       end.

Definition read_number (s : string) : option (Z * string) :=
  match s with
  | String c r =>
      if Ascii.eqb c "-"
      then match read_natural r with
           | Some (n, rest) => Some ((- n)%Z, rest)
           | None => None
           end
      else read_natural s
  | EmptyString => None
  end.

Definition hex_value (c : ascii) : option nat :=
  let n := nat_of_ascii c in
  if is_digit c then Some (n - 48)
  else if (97 <=? n)%nat && (n <=? 102)%nat then Some (n - 87)
  else if (65 <=? n)%nat && (n <=? 70)%nat then Some (n - 55)
  else None.

(** The character that a two-character escape stands for. *)
Definition unescape (e : ascii) : option ascii :=
  if Ascii.eqb e "b" then Some "008"%char
  else if Ascii.eqb e "t" then Some "009"%char
  else if Ascii.eqb e "n" then Some "010"%char
  else if Ascii.eqb e "f" then Some "012"%char
  else if Ascii.eqb e "r" then Some "013"%char
  else if Ascii.eqb e dquote then Some dquote
  else if Ascii.eqb e backslash then Some backslash
  else if Ascii.eqb e "/" then Some "/"%char
  else None.

Definition prepend (c : ascii) (o : option (string * string)) : option (string * string) :=
  match o with
  | Some (x, rest) => Some (String c x, rest)
  | None => None
  end.

(** The characters of a string up to its closing quote, and what follows
    the quote. *)
Fixpoint read_chars (s : string) : option (string * string) :=
  match s with
  | EmptyString => None
  | String c r =>
      if Ascii.eqb c dquote then Some (EmptyString, r)
      else if Ascii.eqb c backslash then
        match r with
        | String e r' =>
            if Ascii.eqb e "u" then
              match r' with
              | String h1 (String h2 (String h3 (String h4 r''))) =>
                  match hex_value h1, hex_value h2, hex_value h3, hex_value h4 with
                  | Some a, Some b, Some c', Some d =>
                      let code := ((a * 16 + b) * 16 + c') * 16 + d in
                      if (code <? 256)%nat then prepend (ascii_of_nat code) (read_chars r'')
                      else None
                  | _, _, _, _ => None
                  end
              | _ => None
              end
            else
              match unescape e with
              | Some x => prepend x (read_chars r')
              | None => None
              end
        | EmptyString => None
        end
      else if (nat_of_ascii c <? 32)%nat then None
      else prepend c (read_chars r)
  end.

Fixpoint strip (p s : string) : option string :=
  match p with
  | EmptyString => Some s
  | String a p' =>
      match s with
      | String b s' => if Ascii.eqb a b then strip p' s' else None
      | EmptyString => None
      end
  end.

Fixpoint read_value (fuel : nat) (s : string) : option (jsval * string) :=
  match fuel with
  | 0 => None
  | S fuel =>
      match s with
      | EmptyString => None
      | String c r =>
          if Ascii.eqb c "n" then
            match strip "ull" r with Some r' => Some (JNull, r') | None => None end
          else if Ascii.eqb c "t" then
            match strip "rue" r with Some r' => Some (JBool true, r') | None => None end
          else if Ascii.eqb c "f" then
            match strip "alse" r with Some r' => Some (JBool false, r') | None => None end
          else if Ascii.eqb c dquote then
            match read_chars r with Some (x, r') => Some (JString x, r') | None => None end
          else if Ascii.eqb c "[" then
            match r with
            | String c' r' =>
                if Ascii.eqb c' "]" then Some (JArray [], r')
                else match read_elements fuel r with
                     | Some (l, r'') => Some (JArray l, r'')
                     | None => None
                     end
            | EmptyString => None
            end
          else if Ascii.eqb c "{" then
            match r with
            | String c' r' =>
                if Ascii.eqb c' "}" then Some (JObject [], r')
                else match read_members fuel r with
                     | Some (l, r'') => Some (JObject l, r'')
                     | None => None
                     end
            | EmptyString => None
            end
          else
            match read_number s with Some (n, r') => Some (JNum n, r') | None => None end
      end
  end
with read_elements (fuel : nat) (s : string) : option (list jsval * string) :=
  match fuel with
  | 0 => None
  | S fuel =>
      match read_value fuel s with
      | Some (v, String c r) =>
          if Ascii.eqb c "]" then Some ([v], r)
          else if Ascii.eqb c "," then
            match read_elements fuel r with
            | Some (l, r') => Some (v :: l, r')
            | None => None
            end
          else None
      | _ => None
      end
  end
with read_members (fuel : nat) (s : string) : option (list (string * jsval) * string) :=
  match fuel with
  | 0 => None
  | S fuel =>
      match s with
      | String q r =>
          if Ascii.eqb q dquote then
            match read_chars r with
            | Some (k, String c r1) =>
                if Ascii.eqb c ":" then
                  match read_value fuel r1 with
                  | Some (v, String c' r2) =>
                      if Ascii.eqb c' "}" then Some ([(k, v)], r2)
                      else if Ascii.eqb c' "," then
                        match read_members fuel r2 with
                        | Some (l, r3) => Some ((k, v) :: l, r3)
                        | None => None
                        end
                      else None
                  | _ => None
                  end
                else None
            | _ => None
            end
          else None
      | EmptyString => None
      end
  end.

(** The value a whole text stands for. *)
Definition JSON_read (s : string) : option jsval :=
  match read_value (S (String.length s)) s with
  | Some (v, EmptyString) => Some v
  | _ => None
  end.

(** Data: values made of [null], booleans, exactly representable
    integers, strings, arrays and objects. *)
Definition safe (n : Z) : bool := (Z.abs n <? 2 ^ 53)%Z.

Fixpoint plain (v : jsval) : bool :=
  match v with
  | JNull | JBool _ | JString _ => true
  | JNum n => safe n
  | JArray elems => forallb plain elems
  | JObject props => forallb (fun '(k, x) => plain x) props
  | JUndefined | JFun _ => false
  end.

(** *** Object.assign(target, source) *)

Definition index_key (i : nat) : string := NilZero.string_of_uint (Nat.to_uint i).

Fixpoint chars (s : string) : list jsval :=
  match s with
  | EmptyString => []
  | String c r => JString (String c EmptyString) :: chars r
  end.

(** The own enumerable properties of a source, in the order in which
    [Object.assign] copies them; [null], [undefined], numbers, booleans and
    plain functions have none. *)
Definition own_enumerable (v : jsval) : list (string * jsval) :=
  match v with
  | JObject props => props
  | JArray elems => imap (fun i x => (index_key i, x)) elems
  | JString s => imap (fun i x => (index_key i, x)) (chars s)
  | _ => []
  end.

(** [target[k] = v] for every property in turn. *)
Definition put (m : gmap string jsval) (kv : string * jsval) : gmap string jsval :=
  <[kv.1 := kv.2]> m.

Definition Object_assign (target : gmap string jsval) (source : jsval)
  : gmap string jsval :=
  fold_left put (own_enumerable source) target.

(** A property read [o.k]: a missing property reads as [undefined]. *)
Definition get (k : string) (o : gmap string jsval) : jsval :=
  default JUndefined (o !! k).

End JS.

Import JS.

(* ===================================================================== *)
(** ** The state of the module *)
(* ===================================================================== *)

(** The object bound to the closure variable [self].  A property that was
    never assigned reads as [undefined]. *)
Module Self.

Record t : Type := mk {
  options : gmap string jsval;
  zencode : jsval;
  keys : jsval;
  conf : jsval;
  data : jsval;
  print : jsval;
  success : jsval;
  error : jsval;
  verbosity : jsval
}.

(** [{}] followed by [self.options = {}] *)
Definition empty : t :=
  mk ∅ JUndefined JUndefined JUndefined JUndefined
     JUndefined JUndefined JUndefined JUndefined.

Definition set_options (o : gmap string jsval) (s : t) : t :=
  mk o (zencode s) (keys s) (conf s) (data s) (print s) (success s) (error s) (verbosity s).
Definition set_zencode (v : jsval) (s : t) : t :=
  mk (options s) v (keys s) (conf s) (data s) (print s) (success s) (error s) (verbosity s).
Definition set_keys (v : jsval) (s : t) : t :=
  mk (options s) (zencode s) v (conf s) (data s) (print s) (success s) (error s) (verbosity s).
Definition set_conf (v : jsval) (s : t) : t :=
  mk (options s) (zencode s) (keys s) v (data s) (print s) (success s) (error s) (verbosity s).
Definition set_data (v : jsval) (s : t) : t :=
  mk (options s) (zencode s) (keys s) (conf s) v (print s) (success s) (error s) (verbosity s).
Definition set_print (v : jsval) (s : t) : t :=
  mk (options s) (zencode s) (keys s) (conf s) (data s) v (success s) (error s) (verbosity s).
Definition set_success (v : jsval) (s : t) : t :=
  mk (options s) (zencode s) (keys s) (conf s) (data s) (print s) v (error s) (verbosity s).
Definition set_error (v : jsval) (s : t) : t :=
  mk (options s) (zencode s) (keys s) (conf s) (data s) (print s) (success s) v (verbosity s).
Definition set_verbosity (v : jsval) (s : t) : t :=
  mk (options s) (zencode s) (keys s) (conf s) (data s) (print s) (success s) (error s) v.

End Self.

(** The three callback slots of the imported binding [C]. *)
Module Binding.

Record t : Type := mk {
  print : jsval;
  exec_ok : jsval;
  exec_error : jsval
}.

Definition set_print (v : jsval) (c : t) : t := mk v (exec_ok c) (exec_error c).
Definition set_exec_ok (v : jsval) (c : t) : t := mk (print c) v (exec_error c).
Definition set_exec_error (v : jsval) (c : t) : t := mk (print c) (exec_ok c) v.

End Binding.

(** One [C.ccall(ident, returnType, argTypes, args)]. *)
Record ccall : Type := mk_ccall {
  ident : string;
  returnType : string;
  argTypes : list string;
  args : list jsval
}.

(** What the methods read and write: [self], the slots of [C], and the
    foreign calls issued so far, oldest first. *)
Record world : Type := mk_world {
  self : Self.t;
  C : Binding.t;
  ccalls : list ccall
}.

(** *** State passing *)

Definition M (A : Type) : Type := world -> A * world.

Definition ret {A} (a : A) : M A := fun w => (a, w).
Definition bind {A B} (m : M A) (k : A -> M B) : M B :=
  fun w => let (a, w') := m w in k a w'.

Declare Scope js_scope.
Delimit Scope js_scope with js.
Notation "'let*' x ':=' m 'in' k" := (bind m (fun x => k))
  (at level 10, x name, m at level 100, k at level 200) : js_scope.
Notation "m ';;;' k" := (bind m (fun _ => k))
  (at level 100, k at level 200, right associativity) : js_scope.

Definition read_self : M Self.t := fun w => (self w, w).
Definition update_self (f : Self.t -> Self.t) : M unit :=
  fun w => (tt, mk_world (f (self w)) (C w) (ccalls w)).
Definition update_C (f : Binding.t -> Binding.t) : M unit :=
  fun w => (tt, mk_world (self w) (f (C w)) (ccalls w)).
Definition C_ccall (id rt : string) (tys : list string) (vs : list jsval) : M unit :=
  fun w => (tt, mk_world (self w) (C w) (ccalls w ++ [mk_ccall id rt tys vs])).

(* ===================================================================== *)
(** ** The wrapper *)
(* ===================================================================== *)

Local Open Scope js_scope.

(** [const zenroomExec = (zencode, conf = null, keys = null, data = null,
    verbosity = 1) => { C.ccall(...) }] *)
Definition zenroomExec (zencode conf keys data verbosity : jsval) : M unit :=
  let conf := default_param JNull conf in
  let keys := default_param JNull keys in
  let data := default_param JNull data in
  let verbosity := default_param (JNum 1) verbosity in
  C_ccall "zenroom_exec" "number"
          ["string"; "string"; "string"; "string"; "number"]
          [zencode; conf; keys; data; verbosity].

(** Every method ends in [return this]; the receiver is whatever the
    method was called on. *)

Definition zencode {T} (this : T) (zencode : jsval) : M T :=
  update_self (Self.set_zencode zencode) ;;;
  ret this.

Definition keys {T} (this : T) (keys : jsval) : M T :=
  update_self (Self.set_keys (if truthy keys then JSON_stringify keys else JNull)) ;;;
  ret this.

Definition conf {T} (this : T) (conf : jsval) : M T :=
  update_self (Self.set_conf conf) ;;;
  ret this.

Definition data {T} (this : T) (data : jsval) : M T :=
  update_self (Self.set_data data) ;;;
  ret this.

Definition print {T} (this : T) (printFunction : jsval) : M T :=
  update_self (Self.set_print printFunction) ;;;
  update_C (Binding.set_print (JFun SelfPrintArrow)) ;;;
  ret this.

Definition success {T} (this : T) (success_callback : jsval) : M T :=
  update_self (Self.set_success success_callback) ;;;
  update_C (Binding.set_exec_ok success_callback) ;;;
  ret this.

Definition error {T} (this : T) (error_callback : jsval) : M T :=
  update_self (Self.set_error error_callback) ;;;
  update_C (Binding.set_exec_error error_callback) ;;;
  ret this.

Definition verbosity {T} (this : T) (verbosity : jsval) : M T :=
  update_self (Self.set_verbosity verbosity) ;;;
  ret this.

Definition exec {T} (this : T) : M T :=
  let* s := read_self in
  zenroomExec (Self.zencode s) (Self.conf s) (Self.keys s) (Self.data s)
              (Self.verbosity s) ;;;
  ret this.

(** The setters are called as plain functions inside [init] and
    [__setup]: their receiver is [undefined] and their result is dropped.
    [Object.assign] returns its target, an object, so the [|| {}] after it
    is never taken. *)
Definition init {T} (this : T) (options : jsval) : M T :=
  update_self (fun s => Self.set_options (Object_assign (Self.options s) options) s) ;;;
  let* s := read_self in
  let o := Self.options s in
  zencode JUndefined (or (get "zencode" o) (JString EmptyString)) ;;;
  keys JUndefined (or (get "keys" o) JNull) ;;;
  conf JUndefined (or (get "conf" o) JNull) ;;;
  data JUndefined (or (get "data" o) JNull) ;;;
  print JUndefined (or (get "print" o) (JFun ConsoleLogArrow)) ;;;
  success JUndefined (or (get "success" o) (JFun NewFunction)) ;;;
  error JUndefined (or (get "error" o) (JFun NewFunction)) ;;;
  verbosity JUndefined (or (get "verbosity" o) (JNum 1)) ;;;
  ret this.

Definition __setup : M unit :=
  let* s := read_self in
  print JUndefined (or (Self.print s) (JFun ConsoleLogArrow)) ;;;
  let* s := read_self in
  success JUndefined (or (Self.success s) (JFun EmptyArrow)) ;;;
  let* s := read_self in
  error JUndefined (or (Self.error s) (JFun EmptyArrow)) ;;;
  ret tt.

Definition reset {T} (this : T) : M T :=
  update_self (fun _ => Self.empty) ;;;
  update_self (Self.set_options ∅) ;;;
  __setup ;;;
  ret this.

Definition __debug : M Self.t := read_self.

(** Evaluation of the module body: [let self = {}; self.options = {};]
    the function definitions, then [__setup()].  [C0] holds whatever the
    binding's slots were when the module was imported. *)
Definition module_init (C0 : Binding.t) : world :=
  snd (__setup (mk_world (Self.set_options ∅ Self.empty) C0 [])).

(** *** What the engine reaches through the slots *)

Inductive effect : Type :=
  | ConsoleLog (text : jsval)                  (* console.log(text) *)
  | Nothing                                    (* an empty body ran *)
  | HostCall (id : nat) (actuals : list jsval) (* the caller's function ran *)
  | TypeError                                  (* the callee is not a function *)
  | RangeError.                                (* unbounded recursion *)

Definition first_arg (actuals : list jsval) : jsval := nth 0 actuals JUndefined.

(** A closure that does not read [self]. *)
Definition apply_plain (c : closure) (actuals : list jsval) : effect :=
  match c with
  | ConsoleLogArrow => ConsoleLog (first_arg actuals)
  | EmptyArrow | NewFunction => Nothing
  | Host id => HostCall id actuals
  | SelfPrintArrow => RangeError
  end.

(** [f(...actuals)] in world [w].  [text => self.print(text)] reads the
    variable [self] when it runs; it recurses for ever when [self.print] is
    that same arrow. *)
Definition call (w : world) (f : jsval) (actuals : list jsval) : effect :=
  match f with
  | JFun SelfPrintArrow =>
      match Self.print (self w) with
      | JFun c => apply_plain c [first_arg actuals]
      | _ => TypeError
      end
  | JFun c => apply_plain c actuals
  | _ => TypeError
  end.

(** The engine runs [C.print(text)], [C.exec_ok(...)], [C.exec_error(...)]. *)
Definition engine_print (w : world) (text : jsval) : effect :=
  call w (Binding.print (C w)) [text].
Definition engine_ok (w : world) (actuals : list jsval) : effect :=
  call w (Binding.exec_ok (C w)) actuals.
Definition engine_error (w : world) (actuals : list jsval) : effect :=
  call w (Binding.exec_error (C w)) actuals.

(* ===================================================================== *)
(** ** Chains of method calls *)
(* ===================================================================== *)

(** The public surface, one constructor per method that changes or uses
    the state. *)
Inductive op : Type :=
  | Zencode (v : jsval)
  | Keys (v : jsval)
  | Conf (v : jsval)
  | Data (v : jsval)
  | Print (v : jsval)
  | Success (v : jsval)
  | Error (v : jsval)
  | Verbosity (v : jsval)
  | Exec
  | Init (options : jsval)
  | Reset.

Definition invoke {T} (this : T) (o : op) : M T :=
  match o with
  | Zencode v => zencode this v
  | Keys v => keys this v
  | Conf v => conf this v
  | Data v => data this v
  | Print v => print this v
  | Success v => success this v
  | Error v => error this v
  | Verbosity v => verbosity this v
  | Exec => exec this
  | Init options => init this options
  | Reset => reset this
  end.

(** [this.m1(..).m2(..)...]: each call is made on the result of the one
    before. *)
Fixpoint chain {T} (this : T) (ops : list op) : M T :=
  match ops with
  | [] => ret this
  | o :: rest => let* h := invoke this o in chain h rest
  end.

(** The exported object. *)
Inductive handle : Type := zenroom.

Definition step (o : op) (w : world) : world := snd (invoke zenroom o w).
Definition after (ops : list op) (w : world) : world := snd (chain zenroom ops w).

(** The payload fields, in the order of the foreign signature, and the
    three hooks. *)
Inductive field : Type := FZencode | FConf | FKeys | FData | FVerbosity.
Inductive hook : Type := Output | Succeeded | Failed.

Definition field_name (f : field) : string :=
  match f with
  | FZencode => "zencode" | FConf => "conf" | FKeys => "keys"
  | FData => "data" | FVerbosity => "verbosity"
  end.

Definition hook_name (h : hook) : string :=
  match h with
  | Output => "print" | Succeeded => "success" | Failed => "error"
  end.

Definition position (f : field) : nat :=
  match f with
  | FZencode => 0 | FConf => 1 | FKeys => 2 | FData => 3 | FVerbosity => 4
  end.

Definition stored (f : field) (s : Self.t) : jsval :=
  match f with
  | FZencode => Self.zencode s | FConf => Self.conf s | FKeys => Self.keys s
  | FData => Self.data s | FVerbosity => Self.verbosity s
  end.

Definition hooked (h : hook) (s : Self.t) : jsval :=
  match h with
  | Output => Self.print s | Succeeded => Self.success s | Failed => Self.error s
  end.

(** The argument list of the foreign call that an [exec()] made now would
    issue, and one argument of it. *)
Definition dispatched (w : world) : option (list jsval) :=
  args <$> last (ccalls (step Exec w)).

Definition sent (f : field) (w : world) : option jsval :=
  dispatched w ≫= (fun l => l !! position f).

(** The defaults the interface documents. *)
Definition documented_default (f : field) : jsval :=
  match f with
  | FZencode => JString EmptyString
  | FConf | FKeys | FData => JNull
  | FVerbosity => JNum 1
  end.

(** What [zenroomExec] makes of a stored value. *)
Definition bridged (f : field) (v : jsval) : jsval :=
  match f with
  | FZencode => v
  | FConf | FKeys | FData => default_param JNull v
  | FVerbosity => default_param (JNum 1) v
  end.

(** *** Vocabulary of the properties *)

(** [sets f o]: the call [o] assigns the field [f] of [self] ([init] runs
    every setter). *)
Definition sets (f : field) (o : op) : bool :=
  match o, f with
  | Zencode _, FZencode | Conf _, FConf | Keys _, FKeys
  | Data _, FData | Verbosity _, FVerbosity => true
  | Init _, _ => true
  | _, _ => false
  end.

(** Whether [f] has been set since the module was loaded or last reset;
    [b] is the answer before [ops]. *)
Fixpoint set_since_reset (f : field) (ops : list op) (b : bool) : bool :=
  match ops with
  | [] => b
  | Reset :: rest => set_since_reset f rest false
  | o :: rest => set_since_reset f rest (b || sets f o)
  end.

Definition unset (f : field) (ops : list op) : Prop :=
  set_since_reset f ops false = false.

(** The eight setters. *)
Definition is_setter (o : op) : bool :=
  match o with
  | Exec | Init _ | Reset => false
  | _ => true
  end.

Definition argument_for (f : field) (o : op) : option jsval :=
  match o, f with
  | Zencode v, FZencode | Conf v, FConf | Keys v, FKeys
  | Data v, FData | Verbosity v, FVerbosity => Some v
  | _, _ => None
  end.

(** The argument of the last call in [ops] of the setter of [f]. *)
Definition last_argument (f : field) (ops : list op) : option jsval :=
  last (omap (argument_for f) ops).

(** What the setter of [f] writes on [self] when called with [a]. *)
Definition stored_as (f : field) (a : jsval) : jsval :=
  match f with
  | FKeys => if truthy a then JSON_stringify a else JNull
  | _ => a
  end.

(** The fallbacks of [__setup] and of [init]. *)
Definition factory (h : hook) : jsval :=
  match h with
  | Output => JFun ConsoleLogArrow
  | Succeeded | Failed => JFun EmptyArrow
  end.

Definition init_fallback (h : hook) : jsval :=
  match h with
  | Output => JFun ConsoleLogArrow
  | Succeeded | Failed => JFun NewFunction
  end.

(** The function that the call [o], made in world [w], registers for the
    hook [h], if it registers one. *)
Definition registers (h : hook) (w : world) (o : op) : option jsval :=
  match o with
  | Print v => match h with Output => Some v | _ => None end
  | Success v => match h with Succeeded => Some v | _ => None end
  | Error v => match h with Failed => Some v | _ => None end
  | Init options =>
      Some (or (get (hook_name h) (Object_assign (Self.options (self w)) options))
               (init_fallback h))
  | Reset => Some (factory h)
  | _ => None
  end.

(** The most recent registration for [h] along [ops], started in [w];
    [cur] is the one in force before. *)
Fixpoint latest (h : hook) (ops : list op) (w : world) (cur : jsval) : jsval :=
  match ops with
  | [] => cur
  | o :: rest => latest h rest (step o w) (default cur (registers h w o))
  end.

Definition slot (h : hook) (c : Binding.t) : jsval :=
  match h with
  | Output => Binding.print c
  | Succeeded => Binding.exec_ok c
  | Failed => Binding.exec_error c
  end.

(** [self] and the slots agree: [C.print] forwards to [self.print], the
    other two slots hold the functions stored on [self]. *)
Definition wired (w : world) : Prop :=
  Binding.print (C w) = JFun SelfPrintArrow
  /\ Binding.exec_ok (C w) = Self.success (self w)
  /\ Binding.exec_error (C w) = Self.error (self w).

(** The value of property [k] of an object given by its property list: the
    last binding of [k]. *)
Fixpoint assoc_last (k : string) (ps : list (string * jsval)) : option jsval :=
  match ps with
  | [] => None
  | (k', v) :: rest =>
      match assoc_last k rest with
      | Some x => Some x
      | None => if decide (k' = k) then Some v else None
      end
  end.

Definition is_structured (v : jsval) : bool :=
  match v with
  | JArray _ | JObject _ => true
  | _ => false
  end.

(** What may stand in [self.keys], and what the foreign signature takes
    for a [string] argument: text or [null]. *)
Definition text_or_absent (v : jsval) : bool :=
  match v with
  | JUndefined | JNull | JString _ => true
  | _ => false
  end.

Definition text_or_null (v : jsval) : bool :=
  match v with
  | JNull | JString _ => true
  | _ => false
  end.

Definition is_exec (o : op) : bool :=
  match o with
  | Exec => true
  | _ => false
  end.

Definition is_function (v : jsval) : bool :=
  match v with
  | JFun _ => true
  | _ => false
  end.

(** The property of [self] that a setter assigns. *)
Inductive target : Type := TField (f : field) | THook (h : hook).

Definition assigns (o : op) : option target :=
  match o with
  | Zencode _ => Some (TField FZencode)
  | Keys _ => Some (TField FKeys)
  | Conf _ => Some (TField FConf)
  | Data _ => Some (TField FData)
  | Verbosity _ => Some (TField FVerbosity)
  | Print _ => Some (THook Output)
  | Success _ => Some (THook Succeeded)
  | Error _ => Some (THook Failed)
  | Exec | Init _ | Reset => None
  end.

(** The call of the setter of hook [h] with [v]. *)
Definition register (h : hook) (v : jsval) : op :=
  match h with
  | Output => Print v
  | Succeeded => Success v
  | Failed => Error v
  end.

(** The engine fires the slot of [h] with [actuals]. *)
Definition fire (h : hook) (w : world) (actuals : list jsval) : effect :=
  match h with
  | Output => engine_print w (first_arg actuals)
  | Succeeded => engine_ok w actuals
  | Failed => engine_error w actuals
  end.

(** What the default hook of kind [h] does when fired. *)
Definition default_effect (h : hook) (actuals : list jsval) : effect :=
  match h with
  | Output => ConsoleLog (first_arg actuals)
  | Succeeded | Failed => Nothing
  end.

(** The foreign call that [exec()] issues in world [w]. *)
Definition call_of (w : world) : ccall :=
  mk_ccall "zenroom_exec" "number"
    ["string"; "string"; "string"; "string"; "number"]
    [bridged FZencode (Self.zencode (self w));
     bridged FConf (Self.conf (self w));
     bridged FKeys (Self.keys (self w));
     bridged FData (Self.data (self w));
     bridged FVerbosity (Self.verbosity (self w))].

(** A logged call as the wrapper shapes it: the fixed name and signature,
    five arguments, of which the last four are never [undefined] and the
    keys are text or [null]. *)
Definition shaped (c : ccall) : Prop :=
  ident c = "zenroom_exec"
  /\ returnType c = "number"
  /\ argTypes c = ["string"; "string"; "string"; "string"; "number"]
  /\ exists z cf k d v,
       args c = [z; cf; k; d; v]
       /\ cf <> JUndefined /\ k <> JUndefined /\ d <> JUndefined /\ v <> JUndefined
       /\ text_or_null k = true.

(** Whether [JSON.stringify] calls a [toJSON] method of [v] itself. *)
Definition has_toJSON (v : jsval) : bool :=
  match v with
  | JObject props => calls_toJSON props
  | _ => false
  end.

(** What may follow the text of a number. *)
Definition ends_number (rest : string) : bool :=
  match rest with
  | String c _ => negb (is_digit c) && negb (starts_fraction rest)
  | EmptyString => true
  end.

(** The number of nodes and list cells of a value: the fuel that reading
    its text takes. *)
Fixpoint size (v : jsval) : nat :=
  match v with
  | JArray elems => S (list_sum (map (fun x => S (size x)) elems))
  | JObject props => S (list_sum (map (fun '(k, x) => S (size x)) props))
  | _ => 1
  end.

(** The text of a datum is read back as the datum, whatever follows. *)
Definition reads (v : jsval) : Prop :=
  plain v = true ->
  exists t,
    serialize v = Some t
    /\ (exists c r, t = String c r /\ Ascii.eqb c "]" = false)
    /\ size v <= String.length t
    /\ forall rest fuel,
         ends_number rest = true -> size v <= fuel ->
         read_value fuel (t +:+ rest) = Some (v, rest).

Definition elems_text (l : list jsval) : string :=
  String.concat "," (map (fun x => default "null" (serialize x)) l).

Definition member_text (kv : string * jsval) : option string :=
  let '(k, x) := kv in
  match serialize x with
  | Some s => Some (QuoteJSONString k +:+ ":" +:+ s)
  | None => None
  end.

Definition members_text (ps : list (string * jsval)) : string :=
  String.concat "," (omap member_text ps).

(** An empty binding, for concrete runs. *)
Definition C_blank : Binding.t := Binding.mk JUndefined JUndefined JUndefined.

(* ===================================================================== *)
(** ** Properties *)
(* ===================================================================== *)

Example stringify_keys_example :
  JSON_stringify (JObject [("a", JNum 1); ("b", JNum 2)])
  = JString ("{" +:+ QuoteJSONString "a" +:+ ":1," +:+ QuoteJSONString "b" +:+ ":2}").
Proof. reflexivity. Qed.

(** *** Basic facts about chains *)

Lemma invoke_receiver {T} (this : T) o w : fst (invoke this o w) = this.
Proof. destruct o; reflexivity. Qed.

Lemma chain_receiver {T} (this : T) ops w : fst (chain this ops w) = this.
Proof.
  revert w. induction ops as [|o rest IH]; intros w; [reflexivity|].
  cbn [chain]. unfold bind.
  pose proof (invoke_receiver this o w) as R.
  destruct (invoke this o w) as [h w']. cbn [fst] in R. subst h.
  apply IH.
Qed.

Lemma invoke_world {T} (this : T) o w : snd (invoke this o w) = step o w.
Proof. destruct o; reflexivity. Qed.

Lemma after_nil w : after [] w = w.
Proof. reflexivity. Qed.

Lemma after_cons o ops w : after (o :: ops) w = after ops (step o w).
Proof.
  unfold after, step. cbn [chain]. unfold bind.
  destruct (invoke zenroom o w) as [h w'] eqn:E.
  assert (h = zenroom) as -> by (destruct h; reflexivity).
  reflexivity.
Qed.

Lemma after_app ops1 ops2 w : after (ops1 ++ ops2) w = after ops2 (after ops1 w).
Proof.
  revert w. induction ops1 as [|o ops1 IH]; intros w; [reflexivity|].
  rewrite <- app_comm_cons, !after_cons. apply IH.
Qed.

Lemma sent_bridged f w : sent f w = Some (bridged f (stored f (self w))).
Proof.
  unfold sent, dispatched, step. cbn.
  rewrite last_snoc. destruct f; reflexivity.
Qed.

Lemma step_exec_self w : self (step Exec w) = self w.
Proof. reflexivity. Qed.

Lemma step_exec_C w : C (step Exec w) = C w.
Proof. reflexivity. Qed.

(** *** The bridge *)

Section Bridge.

Context {T : Type} (this : T).

(** C8.  [exec()] appends exactly one [zenroom_exec] call to the log; its
    arguments are the five fields of [self] in the order script,
    configuration, keys, data, verbosity, as [zenroomExec] forwards them
    (an [undefined] one of the last four as its parameter default); the
    result is the receiver, and [self] and the slots of [C] are
    untouched, so a second [exec()] sends the same arguments again. *)
Theorem exec_single_call_frame (w : world) :
  let c := mk_ccall "zenroom_exec" "number"
             ["string"; "string"; "string"; "string"; "number"]
             [bridged FZencode (Self.zencode (self w));
              bridged FConf (Self.conf (self w));
              bridged FKeys (Self.keys (self w));
              bridged FData (Self.data (self w));
              bridged FVerbosity (Self.verbosity (self w))] in
  exec this w = (this, mk_world (self w) (C w) (ccalls w ++ [c]))
  /\ exec this (snd (exec this w))
     = (this, mk_world (self w) (C w) (ccalls w ++ [c; c]))
  /\ dispatched (step Exec w) = dispatched w.
Proof.
  cbn zeta. split; [reflexivity|]. split.
  - cbv [exec zenroomExec bind read_self C_ccall ret snd self C ccalls].
    rewrite <- app_assoc. reflexivity.
  - unfold dispatched, step. cbn. rewrite !last_snoc. reflexivity.
Qed.

End Bridge.

(** *** Reset *)

Lemma step_reset w :
  step Reset w
  = mk_world
      (Self.mk ∅ JUndefined JUndefined JUndefined JUndefined
               (factory Output) (factory Succeeded) (factory Failed) JUndefined)
      (Binding.mk (JFun SelfPrintArrow) (factory Succeeded) (factory Failed))
      (ccalls w).
Proof. reflexivity. Qed.

Lemma module_init_eq C0 :
  module_init C0
  = mk_world
      (Self.mk ∅ JUndefined JUndefined JUndefined JUndefined
               (factory Output) (factory Succeeded) (factory Failed) JUndefined)
      (Binding.mk (JFun SelfPrintArrow) (factory Succeeded) (factory Failed))
      [].
Proof. reflexivity. Qed.

(** C3.  Whatever came before, after [reset()] the five payload fields of
    [self] are absent and the options store is empty, the three hooks on
    [self] are the factory ones, and the engine reaches them through the
    slots of [C]: text goes to [console.log], success and failure do
    nothing.  It is the state the module has when it is loaded. *)
Theorem reset_restores_defaults (w : world) (C0 : Binding.t) :
  let w' := after [Reset] w in
  (forall f, stored f (self w') = JUndefined)
  /\ Self.options (self w') = ∅
  /\ (forall h, hooked h (self w') = factory h)
  /\ (forall text, engine_print w' text = ConsoleLog text)
  /\ (forall actuals, engine_ok w' actuals = Nothing)
  /\ (forall actuals, engine_error w' actuals = Nothing)
  /\ self w' = self (module_init C0)
  /\ C w' = C (module_init C0).
Proof.
  cbn zeta. rewrite after_cons, after_nil, step_reset, module_init_eq.
  split; [intros f; destruct f; reflexivity|]. repeat split.
Qed.

(** C7.  A second [reset()] changes nothing: [self] with its options
    store, the slots of [C] and the log of foreign calls are those left by
    the first. *)
Theorem reset_idempotent (w : world) :
  after [Reset; Reset] w = after [Reset] w.
Proof. rewrite !after_cons, after_nil, !step_reset. reflexivity. Qed.

(** *** Defaults at the bridge *)

Lemma step_keeps_unset f o w :
  sets f o = false -> o <> Reset -> stored f (self (step o w)) = stored f (self w).
Proof. destruct o, f; intros Hs Hr; try discriminate; try reflexivity; congruence. Qed.

Lemma unset_stored f ops : forall w b,
  set_since_reset f ops b = false ->
  (b = false -> stored f (self w) = JUndefined) ->
  stored f (self (after ops w)) = JUndefined.
Proof.
  induction ops as [|o rest IH]; intros w b Hflag Hw.
  - rewrite after_nil. apply Hw, Hflag.
  - rewrite after_cons.
    destruct o; cbn [set_since_reset] in Hflag;
      try (apply (IH _ _ Hflag); intros Hb;
           apply orb_false_iff in Hb as [-> Hs];
           rewrite step_keeps_unset by (assumption || discriminate);
           apply Hw; reflexivity).
    apply (IH _ false Hflag). intros _. rewrite step_reset.
    destruct f; reflexivity.
Qed.

(** C1, as the bridge has it.  A configuration, keys, data or verbosity
    that no setter and no [init] has assigned since the module was loaded
    or last reset crosses the boundary as its documented default ([null],
    [null], [null], [1]), not as [undefined]. *)
Theorem unset_field_sent_as_default (C0 : Binding.t) (ops : list op) (f : field) :
  f <> FZencode ->
  unset f ops ->
  sent f (after ops (module_init C0)) = Some (documented_default f)
  /\ sent f (after ops (module_init C0)) <> Some JUndefined.
Proof.
  intros Hf Hu.
  assert (sent f (after ops (module_init C0)) = Some (documented_default f)) as E.
  { rewrite sent_bridged.
    rewrite (unset_stored f ops _ false Hu) by (intros _; destruct f; reflexivity).
    destruct f; [congruence| reflexivity ..]. }
  split; [exact E|]. rewrite E. destruct f; discriminate.
Qed.

Lemma unset_field_sent_as_default_witness :
  sent FConf (after [Zencode (JString "print(1)"); Reset; Data (JString "d")]
                    (module_init C_blank))
    = Some (documented_default FConf)
  /\ sent FConf (after [Zencode (JString "print(1)"); Reset; Data (JString "d")]
                       (module_init C_blank))
    <> Some JUndefined.
Proof.
  apply (unset_field_sent_as_default C_blank
           [Zencode (JString "print(1)"); Reset; Data (JString "d")] FConf).
  - discriminate.
  - reflexivity.
Defined.

(** C1 as worded fails for the script: on the freshly loaded module no
    setter has run, and [exec()] sends [undefined] where the documented
    default is the empty string. *)
Lemma unset_script_sent_undefined :
  unset FZencode []
  /\ sent FZencode (after [] (module_init C_blank)) = Some JUndefined
  /\ sent FZencode (after [] (module_init C_blank))
     <> Some (documented_default FZencode).
Proof. repeat split. discriminate. Qed.

(** The empty-string default of the script is the one [init] applies. *)
Lemma init_defaults_script w options :
  truthy (get "zencode" (Object_assign (Self.options (self w)) options)) = false ->
  sent FZencode (after [Init options] w) = Some (JString EmptyString).
Proof.
  intros H. rewrite sent_bridged, after_cons, after_nil.
  cbn. unfold or. rewrite H. reflexivity.
Qed.

(** *** [init({})] against [reset()] *)

(** C2 as worded fails.  On the freshly loaded module [init({})] then
    [exec()] sends the empty string as script, [reset()] then [exec()]
    sends [undefined]; and after [init({conf:'umm'})] the store still
    holds [conf], which [init({})] sends and [reset()] does not. *)
Lemma init_empty_differs_from_reset :
  let w0 := module_init C_blank in
  let w1 := after [Init (JObject [("conf", JString "umm")])] w0 in
  dispatched (after [Init (JObject [])] w0)
    = Some [JString EmptyString; JNull; JNull; JNull; JNum 1]
  /\ dispatched (after [Reset] w0)
    = Some [JUndefined; JNull; JNull; JNull; JNum 1]
  /\ dispatched (after [Init (JObject [])] w0) <> dispatched (after [Reset] w0)
  /\ sent FConf (after [Init (JObject [])] w1) = Some (JString "umm")
  /\ sent FConf (after [Reset] w1) = Some JNull.
Proof. cbn zeta. repeat split. discriminate. Qed.

(** C2, as the code has it.  When the options store holds no truthy
    [zencode], [conf], [keys], [data] or [verbosity] (as on a fresh or
    reset module), [init({})] then [exec()] and [reset()] then [exec()]
    send the same configuration, keys, data and verbosity ([null], [null],
    [null], [1]); the script is the empty string after [init({})] and
    [undefined] after [reset()]. *)
Theorem init_empty_vs_reset (w : world) :
  (forall f, truthy (get (field_name f) (Self.options (self w))) = false) ->
  dispatched (after [Init (JObject [])] w)
    = Some [JString EmptyString; JNull; JNull; JNull; JNum 1]
  /\ dispatched (after [Reset] w)
    = Some [JUndefined; JNull; JNull; JNull; JNum 1]
  /\ (forall f, f <> FZencode ->
        sent f (after [Init (JObject [])] w) = sent f (after [Reset] w)).
Proof.
  intros H.
  pose proof (H FZencode) as Hz. pose proof (H FConf) as Hc.
  pose proof (H FKeys) as Hk. pose proof (H FData) as Hd.
  pose proof (H FVerbosity) as Hv. cbn [field_name] in *.
  assert (dispatched (after [Init (JObject [])] w)
          = Some [JString EmptyString; JNull; JNull; JNull; JNum 1]) as E1.
  { unfold dispatched. rewrite after_cons, after_nil.
    cbn. rewrite last_snoc. cbn. unfold or.
    rewrite Hz, Hc, Hk, Hd, Hv. reflexivity. }
  assert (dispatched (after [Reset] w)
          = Some [JUndefined; JNull; JNull; JNull; JNum 1]) as E2.
  { unfold dispatched. rewrite after_cons, after_nil.
    cbn. rewrite last_snoc. reflexivity. }
  split; [exact E1|]. split; [exact E2|].
  intros f Hf. unfold sent. rewrite E1, E2.
  destruct f; [congruence | reflexivity ..].
Qed.

Lemma init_empty_vs_reset_witness :
  dispatched (after [Init (JObject [])] (module_init C_blank))
    = Some [JString EmptyString; JNull; JNull; JNull; JNum 1]
  /\ dispatched (after [Reset] (module_init C_blank))
    = Some [JUndefined; JNull; JNull; JNull; JNum 1]
  /\ (forall f, f <> FZencode ->
        sent f (after [Init (JObject [])] (module_init C_blank))
        = sent f (after [Reset] (module_init C_blank))).
Proof.
  apply (init_empty_vs_reset (module_init C_blank)).
  intros f. destruct f; reflexivity.
Defined.

(** *** A few runs *)

Example fresh_exec_arguments :
  dispatched (module_init C_blank) = Some [JUndefined; JNull; JNull; JNull; JNum 1].
Proof. reflexivity. Qed.

Example hook_replaced_between_execs :
  let w := after [Success (JFun (Host 1)); Exec; Success (JFun (Host 2)); Exec]
                 (module_init C_blank) in
  engine_ok w [] = HostCall 2 [] /\ length (ccalls w) = 2.
Proof. split; reflexivity. Qed.

Example output_after_reset_goes_to_console :
  engine_print (after [Print (JFun (Host 7)); Zencode (JString "s"); Reset]
                      (module_init C_blank)) (JString "hello")
  = ConsoleLog (JString "hello").
Proof. reflexivity. Qed.

Example non_function_hook_fails_when_fired :
  engine_print (after [Print (JNum 3)] (module_init C_blank)) (JString "hello")
  = TypeError.
Proof. reflexivity. Qed.

(** *** Setters: the last write wins *)

Lemma step_setter_stored f o w :
  is_setter o = true ->
  stored f (self (step o w))
  = match argument_for f o with
    | Some a => stored_as f a
    | None => stored f (self w)
    end.
Proof. destruct o, f; intros H; try discriminate H; reflexivity. Qed.

Lemma setters_stored f ops : forall w,
  Forall (fun o => is_setter o = true) ops ->
  stored f (self (after ops w))
  = match last_argument f ops with
    | Some a => stored_as f a
    | None => stored f (self w)
    end.
Proof.
  induction ops as [|o rest IH]; intros w Hall; [reflexivity|].
  inversion Hall as [|? ? Ho Hrest]; subst.
  rewrite after_cons, (IH _ Hrest), (step_setter_stored f o w Ho).
  unfold last_argument. cbn [omap list_omap].
  destruct (argument_for f o) as [a|]; [|reflexivity].
  rewrite last_cons. destruct (last (omap (argument_for f) rest)); reflexivity.
Qed.

(** C6 as worded fails for the keys, which are stored serialized, and for
    an [undefined] argument, which the bridge replaces. *)
Lemma last_argument_not_always_sent :
  let k := JObject [("a", JNum 1)] in
  last_argument FKeys [Keys k] = Some k
  /\ sent FKeys (after [Keys k] (module_init C_blank))
     = Some (JString ("{" +:+ QuoteJSONString "a" +:+ ":1}"))
  /\ sent FKeys (after [Keys k] (module_init C_blank)) <> Some k
  /\ last_argument FConf [Conf JUndefined] = Some JUndefined
  /\ sent FConf (after [Conf JUndefined] (module_init C_blank)) = Some JNull.
Proof. cbn zeta. repeat split. discriminate. Qed.

(** C6, as the code has it.  After any sequence of setter calls the value
    sent for a field at the next [exec()] is fixed by the argument of the
    last call of that field's setter alone (by the value held before when
    there is none): the argument itself for script, configuration, data
    and verbosity, its JSON text (or [null] when it is falsy) for keys;
    [zenroomExec] then replaces an [undefined] configuration, keys, data
    or verbosity by [null], [null], [null] or [1]. *)
Theorem setters_last_write_wins (w : world) (ops : list op) (f : field) :
  Forall (fun o => is_setter o = true) ops ->
  sent f (after ops w)
  = Some (bridged f match last_argument f ops with
                    | Some a => stored_as f a
                    | None => stored f (self w)
                    end).
Proof. intros Hall. rewrite sent_bridged, (setters_stored f ops w Hall). reflexivity. Qed.

Lemma setters_last_write_wins_witness :
  sent FConf (after [Conf (JString "a"); Zencode (JString "s");
                     Conf (JString "umm"); Print (JFun (Host 0)); Data JNull]
                    (module_init C_blank))
  = Some (JString "umm").
Proof.
  apply (setters_last_write_wins (module_init C_blank)
           [Conf (JString "a"); Zencode (JString "s");
            Conf (JString "umm"); Print (JFun (Host 0)); Data JNull] FConf).
  repeat constructor.
Defined.

(** *** The callback slots *)

Lemma module_init_wired C0 : wired (module_init C0).
Proof. repeat split. Qed.

Lemma step_wired o w : wired w -> wired (step o w).
Proof.
  intros (Hp & Hs & He). destruct o; try (repeat split; assumption); repeat split.
Qed.

Lemma after_wired ops : forall w, wired w -> wired (after ops w).
Proof.
  induction ops as [|o rest IH]; intros w Hw; [exact Hw|].
  rewrite after_cons. apply IH, step_wired, Hw.
Qed.

Lemma step_hooked h o w :
  hooked h (self (step o w)) = default (hooked h (self w)) (registers h w o).
Proof. destruct o, h; reflexivity. Qed.

Lemma after_hooked h ops : forall w,
  hooked h (self (after ops w)) = latest h ops w (hooked h (self w)).
Proof.
  induction ops as [|o rest IH]; intros w; [reflexivity|].
  rewrite after_cons, IH, step_hooked. reflexivity.
Qed.

Lemma wired_engine_print w text :
  wired w -> engine_print w text = call w (Self.print (self w)) [text].
Proof.
  intros (Hp & _). unfold engine_print. rewrite Hp. unfold call.
  destruct (Self.print (self w)) as [| | | | |c| |] eqn:E; try reflexivity.
  destruct c; reflexivity.
Qed.

(** C4.  After any chain of calls on the loaded module, and without
    waiting for an [exec()], the slots of [C] lead to the hook registered
    last for each kind ([__setup]'s default when none was): [C.print]
    forwards to it, [C.exec_ok] and [C.exec_error] hold it; the hooks on
    [self] are the same ones. *)
Theorem slots_follow_latest_registration (C0 : Binding.t) (ops : list op) :
  let w0 := module_init C0 in
  let w := after ops w0 in
  (forall h, hooked h (self w) = latest h ops w0 (factory h))
  /\ slot Output (C w) = JFun SelfPrintArrow
  /\ (forall text,
        engine_print w text = call w (latest Output ops w0 (factory Output)) [text])
  /\ slot Succeeded (C w) = latest Succeeded ops w0 (factory Succeeded)
  /\ slot Failed (C w) = latest Failed ops w0 (factory Failed)
  /\ (forall actuals,
        engine_ok w actuals = call w (latest Succeeded ops w0 (factory Succeeded)) actuals)
  /\ (forall actuals,
        engine_error w actuals = call w (latest Failed ops w0 (factory Failed)) actuals).
Proof.
  cbn zeta.
  pose proof (after_wired ops _ (module_init_wired C0)) as Hw.
  assert (forall h, hooked h (self (after ops (module_init C0)))
                    = latest h ops (module_init C0) (factory h)) as Hh.
  { intros h. rewrite after_hooked. destruct h; reflexivity. }
  destruct Hw as (Hp & Hs & He).
  assert (wired (after ops (module_init C0))) as Hw by (repeat split; assumption).
  pose proof (Hh Output) as Ho. pose proof (Hh Succeeded) as Hok.
  pose proof (Hh Failed) as Hf. cbn [hooked] in Ho, Hok, Hf.
  split; [exact Hh|]. split; [exact Hp|]. split.
  { intros text. rewrite wired_engine_print by exact Hw. rewrite Ho. reflexivity. }
  cbn [slot]. rewrite <- Hok, <- Hf, Hs, He.
  repeat split; intros; unfold engine_ok, engine_error; congruence.
Qed.

(** *** The options store *)

Lemma assign_lookup ps : forall (m : gmap string jsval) k,
  fold_left put ps m !! k
  = match assoc_last k ps with
    | Some v => Some v
    | None => m !! k
    end.
Proof.
  induction ps as [|[k' v] rest IH]; intros m k; [reflexivity|].
  cbn [fold_left assoc_last]. rewrite IH. unfold put. cbn [fst snd].
  destruct (assoc_last k rest); [reflexivity|].
  destruct (decide (k' = k)) as [->|Hne].
  - apply lookup_insert_eq.
  - apply lookup_insert_ne, Hne.
Qed.

Lemma assoc_last_absent k ps : k ∉ ps.*1 -> assoc_last k ps = None.
Proof.
  induction ps as [|[k' v] rest IH]; intros Hk; [reflexivity|].
  cbn [fmap list_fmap fst] in Hk. apply not_elem_of_cons in Hk as [Hne Hrest].
  cbn [assoc_last]. rewrite (IH Hrest).
  destruct (decide (k' = k)); congruence.
Qed.

Lemma assoc_last_present k ps : k ∈ ps.*1 -> is_Some (assoc_last k ps).
Proof.
  induction ps as [|[k' v] rest IH]; intros Hk; [inversion Hk|].
  cbn [fmap list_fmap fst] in Hk. cbn [assoc_last].
  destruct (assoc_last k rest) eqn:E; [eauto|].
  apply elem_of_cons in Hk as [->|Hk].
  - destruct (decide (k' = k')); [eauto | congruence].
  - destruct (IH Hk) as [? ?]. discriminate.
Qed.

(** [init] rebuilds [self] and the slots from the merged store alone. *)
Lemma step_init options w :
  let o := Object_assign (Self.options (self w)) options in
  step (Init options) w
  = mk_world
      (Self.mk o
         (or (get "zencode" o) (JString EmptyString))
         (stored_as FKeys (or (get "keys" o) JNull))
         (or (get "conf" o) JNull)
         (or (get "data" o) JNull)
         (or (get "print" o) (JFun ConsoleLogArrow))
         (or (get "success" o) (JFun NewFunction))
         (or (get "error" o) (JFun NewFunction))
         (or (get "verbosity" o) (JNum 1)))
      (Binding.mk (JFun SelfPrintArrow)
         (or (get "success" o) (JFun NewFunction))
         (or (get "error" o) (JFun NewFunction)))
      (ccalls w).
Proof. reflexivity. Qed.

Lemma step_init_options options w :
  Self.options (self (step (Init options) w))
  = Object_assign (Self.options (self w)) options.
Proof. reflexivity. Qed.

Lemma init_same_property_same_field (o1 o2 : gmap string jsval) opts1 opts2 w1 w2 :
  Self.options (self (step (Init opts1) w1)) = o1 ->
  Self.options (self (step (Init opts2) w2)) = o2 ->
  (forall f, get (field_name f) o1 = get (field_name f) o2 ->
     stored f (self (step (Init opts1) w1)) = stored f (self (step (Init opts2) w2)))
  /\ (forall h, get (hook_name h) o1 = get (hook_name h) o2 ->
     hooked h (self (step (Init opts1) w1)) = hooked h (self (step (Init opts2) w2))).
Proof.
  intros <- <-. rewrite !step_init_options, !step_init. cbn zeta.
  split; [intros f | intros h]; [destruct f | destruct h];
    cbn [field_name hook_name stored hooked self Self.zencode Self.conf Self.keys
         Self.data Self.verbosity Self.print Self.success Self.error];
    intros ->; reflexivity.
Qed.

(** C5.  Two [init] calls with objects that share no property name: every
    property of the first object is still in the options store, with its
    value, after the second call, next to the properties of the second;
    each field and hook that the first object names is on [self] what it
    was after the first call.  So [init({zencode:'A'})] then
    [init({conf:'umm'})] leaves [zencode] 'A' and [conf] 'umm'. *)
Theorem init_merge_keeps_earlier_fields (w : world) (p1 p2 : list (string * jsval)) :
  Forall (fun k => k ∉ p2.*1) p1.*1 ->
  let w1 := after [Init (JObject p1)] w in
  let w2 := after [Init (JObject p1); Init (JObject p2)] w in
  (forall k, k ∈ p1.*1 ->
     is_Some (assoc_last k p1)
     /\ Self.options (self w2) !! k = assoc_last k p1
     /\ Self.options (self w2) !! k = Self.options (self w1) !! k)
  /\ (forall k, k ∈ p2.*1 -> Self.options (self w2) !! k = assoc_last k p2)
  /\ (forall f, field_name f ∈ p1.*1 -> stored f (self w2) = stored f (self w1))
  /\ (forall h, hook_name h ∈ p1.*1 -> hooked h (self w2) = hooked h (self w1))
  /\ (let w' := after [Init (JObject [("zencode", JString "A")]);
                       Init (JObject [("conf", JString "umm")])] w in
      stored FZencode (self w') = JString "A"
      /\ stored FConf (self w') = JString "umm").
Proof.
  intros Hdisj. rewrite Forall_forall in Hdisj.
  cbn zeta. rewrite !after_cons, !after_nil.
  set (s1 := step (Init (JObject p1)) w).
  assert (forall k, k ∈ p1.*1 ->
            Self.options (self (step (Init (JObject p2)) s1)) !! k
            = Self.options (self s1) !! k) as Hkeep.
  { intros k Hk. rewrite step_init_options. unfold Object_assign. cbn [own_enumerable].
    rewrite assign_lookup, (assoc_last_absent k p2 (Hdisj k Hk)). reflexivity. }
  assert (forall k, k ∈ p1.*1 -> Self.options (self s1) !! k = assoc_last k p1) as Hfirst.
  { intros k Hk. unfold s1. rewrite step_init_options. unfold Object_assign.
    cbn [own_enumerable]. rewrite assign_lookup.
    destruct (assoc_last_present k p1 Hk) as [v ->]. reflexivity. }
  destruct (init_same_property_same_field _ _ (JObject p2) (JObject p1) s1 w
              eq_refl eq_refl) as [Hf Hh].
  split; [|split; [|split; [|split]]].
  - intros k Hk. split; [exact (assoc_last_present k p1 Hk)|].
    split; [rewrite (Hkeep k Hk); exact (Hfirst k Hk) | exact (Hkeep k Hk)].
  - intros k Hk. rewrite step_init_options. unfold Object_assign. cbn [own_enumerable].
    rewrite assign_lookup. destruct (assoc_last_present k p2 Hk) as [v ->]. reflexivity.
  - intros f Hk. apply Hf. unfold get. fold s1. rewrite (Hkeep _ Hk). reflexivity.
  - intros h Hk. apply Hh. unfold get. fold s1. rewrite (Hkeep _ Hk). reflexivity.
  - rewrite !step_init. cbn. unfold Object_assign, get, put. cbn.
    rewrite lookup_insert_ne by discriminate.
    rewrite !lookup_insert_eq. split; reflexivity.
Qed.

Lemma init_merge_keeps_earlier_fields_witness :
  stored FZencode
    (self (after [Init (JObject [("zencode", JString "A"); ("verbosity", JNum 2)]);
                  Init (JObject [("conf", JString "umm")])]
                 (module_init C_blank)))
  = stored FZencode
      (self (after [Init (JObject [("zencode", JString "A"); ("verbosity", JNum 2)])]
                   (module_init C_blank))).
Proof.
  refine (proj1 (proj2 (proj2
    (init_merge_keeps_earlier_fields (module_init C_blank)
       [("zencode", JString "A"); ("verbosity", JNum 2)]
       [("conf", JString "umm")] _))) FZencode _).
  - compute_done.
  - compute_done.
Defined.

(** *** Keys cross the boundary as text *)

Lemma stored_as_keys_text a : text_or_absent (stored_as FKeys a) = true.
Proof.
  unfold stored_as, JSON_stringify.
  destruct (truthy a); [|reflexivity]. destruct (serialize a); reflexivity.
Qed.

Lemma step_keys_text o w :
  text_or_absent (Self.keys (self w)) = true ->
  text_or_absent (Self.keys (self (step o w))) = true.
Proof.
  intros H. destruct o; try exact H.
  - apply (stored_as_keys_text v).
  - rewrite step_init. apply stored_as_keys_text.
  - reflexivity.
Qed.

Lemma after_keys_text ops : forall w,
  text_or_absent (Self.keys (self w)) = true ->
  text_or_absent (Self.keys (self (after ops w))) = true.
Proof.
  induction ops as [|o rest IH]; intros w H; [exact H|].
  rewrite after_cons. apply IH, step_keys_text, H.
Qed.

Lemma bridged_keys_text v :
  text_or_absent v = true -> text_or_null (bridged FKeys v) = true.
Proof. destruct v; intros H; try discriminate H; reflexivity. Qed.

Lemma structured_truthy v : is_structured v = true -> truthy v = true.
Proof. destruct v; intros H; try discriminate H; reflexivity. Qed.

(** An array always has a JSON text, an object has one unless its
    [toJSON] method is called. *)
Lemma serialize_structured v :
  is_structured v = true ->
  if has_toJSON v then serialize v = None else is_Some (serialize v).
Proof.
  destruct v; intros H; try discriminate H; cbn [has_toJSON serialize]; [eauto|].
  destruct (calls_toJSON props); eauto.
Qed.

(** **** The text of a datum reads back as the datum *)

Lemma string_append_assoc (a b c : string) : (a +:+ b) +:+ c = a +:+ (b +:+ c).
Proof.
  induction a as [|x a IH]; [reflexivity|].
  change (String x ((a +:+ b) +:+ c) = String x (a +:+ (b +:+ c))). rewrite IH. reflexivity.
Qed.

Lemma read_chars_quote_char c t :
  read_chars (quote_char c +:+ t) = prepend c (read_chars t).
Proof.
  destruct c as [[] [] [] [] [] [] [] []]; reflexivity.
Qed.

Lemma read_chars_quote_body s rest :
  read_chars (quote_body s +:+ String dquote rest) = Some (s, rest).
Proof.
  induction s as [|c s IH]; [reflexivity|].
  cbn [quote_body]. rewrite string_append_assoc, read_chars_quote_char, IH. reflexivity.
Qed.

Lemma take_digits_uint d rest :
  ends_number rest = true ->
  take_digits (NilEmpty.string_of_uint d +:+ rest) = (NilEmpty.string_of_uint d, rest).
Proof.
  intros Hr. induction d; cbn [NilEmpty.string_of_uint];
    try (change (String ?c ?a +:+ rest) with (String c (a +:+ rest));
         cbn [take_digits]; rewrite IHd; reflexivity).
  change (EmptyString +:+ rest) with rest.
  destruct rest as [|c r]; [reflexivity|].
  cbn [ends_number] in Hr. cbn [take_digits].
  destruct (is_digit c); [discriminate Hr | reflexivity].
Qed.

Lemma N_to_uint_nonnil n : N.to_uint n <> Decimal.Nil.
Proof.
  destruct n as [|p]; [discriminate|]. apply DecimalPos.Unsigned.to_uint_nonnil.
Qed.

Lemma NilZero_NilEmpty d :
  d <> Decimal.Nil -> NilZero.string_of_uint d = NilEmpty.string_of_uint d.
Proof. destruct d; intros H; [congruence | reflexivity ..]. Qed.

Lemma leading_zero_unorm d :
  leading_zero (NilZero.string_of_uint (Decimal.unorm d)) = false.
Proof.
  induction d; try reflexivity;
    try (cbn; match goal with |- context [NilEmpty.string_of_uint ?x] =>
           destruct (NilEmpty.string_of_uint x) end; reflexivity).
  rewrite DecimalFacts.unorm_D0. exact IHd.
Qed.

Lemma to_uint_normal n : Decimal.unorm (N.to_uint n) = N.to_uint n.
Proof.
  rewrite <- (DecimalN.Unsigned.to_of (N.to_uint n)), DecimalN.Unsigned.of_to. reflexivity.
Qed.

Lemma read_natural_digits a rest :
  (0 <= a)%Z -> ends_number rest = true ->
  read_natural (digits a +:+ rest) = Some (a, rest).
Proof.
  intros Ha Hr. unfold read_natural, digits.
  set (u := N.to_uint (Z.to_N a)).
  assert (u <> Decimal.Nil) as Hu by apply N_to_uint_nonnil.
  rewrite (NilZero_NilEmpty u Hu), (take_digits_uint u rest Hr).
  rewrite <- (NilZero_NilEmpty u Hu).
  assert (starts_fraction rest = false) as ->.
  { destruct rest as [|c r]; [reflexivity|]. cbn [ends_number] in Hr.
    destruct (starts_fraction (String c r)); [|reflexivity].
    destruct (is_digit c); discriminate Hr. }
  assert (leading_zero (NilZero.string_of_uint u) = false) as ->.
  { unfold u. rewrite <- to_uint_normal. apply leading_zero_unorm. }
  cbn [orb]. rewrite (NilZero.usu u Hu).
  f_equal. f_equal. unfold u, Z.of_uint.
  change (Pos.of_uint (N.to_uint (Z.to_N a))) with (N.of_uint (N.to_uint (Z.to_N a))).
  rewrite DecimalN.Unsigned.of_to. apply Z2N.id, Ha.
Qed.

Lemma string_append_nil_r (a : string) : a +:+ EmptyString = a.
Proof.
  induction a as [|x a IH]; [reflexivity|].
  change (String x (a +:+ EmptyString) = String x a). rewrite IH. reflexivity.
Qed.

Lemma jsval_nested_ind (P : jsval -> Prop) :
  P JUndefined -> P JNull -> (forall b, P (JBool b)) -> (forall n, P (JNum n)) ->
  (forall s, P (JString s)) -> (forall c, P (JFun c)) ->
  (forall l, Forall P l -> P (JArray l)) ->
  (forall ps, Forall (fun kv => P kv.2) ps -> P (JObject ps)) ->
  forall v, P v.
Proof.
  intros Hu Hn Hb Hz Hs Hf Ha Ho. fix IH 1. intros [| |b|n|s|c|l|ps].
  - exact Hu.
  - exact Hn.
  - apply Hb.
  - apply Hz.
  - apply Hs.
  - apply Hf.
  - apply Ha. induction l as [|x l IHl]; constructor; [apply IH | exact IHl].
  - apply Ho. induction ps as [|[k x] ps IHps]; constructor; [apply IH | exact IHps].
Qed.

Lemma safe_below_exponent_form : (2 ^ 53 < 10 ^ 21)%Z.
Proof. reflexivity. Qed.

Lemma number_to_string_safe n :
  safe n = true ->
  finite n = true
  /\ number_to_string n
     = if (n <? 0)%Z then "-" +:+ digits (Z.abs n) else digits (Z.abs n).
Proof.
  unfold safe, finite, number_to_string, round_to_double. intros H. rewrite H.
  split; [reflexivity|].
  assert (positive_to_string (Z.abs n) = digits (Z.abs n)) as ->; [|reflexivity].
  unfold positive_to_string, shortest_decimal. rewrite H.
  assert ((Z.abs n <? 10 ^ 21)%Z = true) as ->; [|reflexivity].
  apply Z.ltb_lt. apply Z.ltb_lt in H. pose proof safe_below_exponent_form.
  eapply Z.lt_trans; eassumption.
Qed.

Lemma digits_head a :
  exists c r, digits a = String c r /\ is_digit c = true.
Proof.
  unfold digits. pose proof (N_to_uint_nonnil (Z.to_N a)) as Hu.
  destruct (N.to_uint (Z.to_N a)); [congruence| ..];
    cbn; eexists _, _; split; reflexivity.
Qed.

Lemma number_head c :
  is_digit c || Ascii.eqb c "-" = true ->
  Ascii.eqb c "n" = false /\ Ascii.eqb c "t" = false /\ Ascii.eqb c "f" = false
  /\ Ascii.eqb c dquote = false /\ Ascii.eqb c "[" = false /\ Ascii.eqb c "{" = false
  /\ Ascii.eqb c "]" = false.
Proof.
  destruct c as [[] [] [] [] [] [] [] []]; intros H; try discriminate H; repeat split.
Qed.

Lemma digit_not_minus c : is_digit c = true -> Ascii.eqb c "-" = false.
Proof. destruct c as [[] [] [] [] [] [] [] []]; intros H; try discriminate H; reflexivity. Qed.

Lemma read_number_safe n rest :
  safe n = true -> ends_number rest = true ->
  read_number (number_to_string n +:+ rest) = Some (n, rest).
Proof.
  intros Hs Hr. destruct (number_to_string_safe n Hs) as [_ ->].
  destruct (Z.ltb_spec n 0) as [Hneg|Hpos].
  - change (("-" +:+ digits (Z.abs n)) +:+ rest)
      with (String "-" (digits (Z.abs n) +:+ rest)).
    cbn [read_number]. change (Ascii.eqb "-" "-") with true. cbn iota.
    rewrite read_natural_digits by (assumption || lia).
    f_equal. f_equal. lia.
  - destruct (digits_head (Z.abs n)) as (c & r & E & Hc).
    pose proof (read_natural_digits (Z.abs n) rest (Z.abs_nonneg n) Hr) as R.
    rewrite E in R |- *. change (String c r +:+ rest) with (String c (r +:+ rest)) in *.
    cbn [read_number]. rewrite (digit_not_minus c Hc). rewrite R.
    f_equal. f_equal. lia.
Qed.

Lemma string_length_append s1 s2 :
  String.length (s1 +:+ s2) = String.length s1 + String.length s2.
Proof.
  induction s1 as [|c s1 IH]; [reflexivity|].
  change (S (String.length (s1 +:+ s2)) = S (String.length s1 + String.length s2)).
  rewrite IH. reflexivity.
Qed.

Lemma concat_cons2 sep a b l :
  String.concat sep (a :: b :: l) = a +:+ sep +:+ String.concat sep (b :: l).
Proof. reflexivity. Qed.

Lemma read_elements_eq fuel s :
  read_elements (S fuel) s
  = match read_value fuel s with
    | Some (v, String c r) =>
        if Ascii.eqb c "]" then Some ([v], r)
        else if Ascii.eqb c "," then
          match read_elements fuel r with
          | Some (l, r') => Some (v :: l, r')
          | None => None
          end
        else None
    | _ => None
    end.
Proof. reflexivity. Qed.

Lemma read_members_eq fuel q r :
  read_members (S fuel) (String q r)
  = if Ascii.eqb q dquote then
      match read_chars r with
      | Some (k, String c r1) =>
          if Ascii.eqb c ":" then
            match read_value fuel r1 with
            | Some (v, String c' r2) =>
                if Ascii.eqb c' "}" then Some ([(k, v)], r2)
                else if Ascii.eqb c' "," then
                  match read_members fuel r2 with
                  | Some (l, r3) => Some ((k, v) :: l, r3)
                  | None => None
                  end
                else None
            | _ => None
            end
          else None
      | _ => None
      end
    else None.
Proof. reflexivity. Qed.

Lemma read_value_eq fuel c r :
  read_value (S fuel) (String c r)
  = if Ascii.eqb c "n" then
      match strip "ull" r with Some r' => Some (JNull, r') | None => None end
    else if Ascii.eqb c "t" then
      match strip "rue" r with Some r' => Some (JBool true, r') | None => None end
    else if Ascii.eqb c "f" then
      match strip "alse" r with Some r' => Some (JBool false, r') | None => None end
    else if Ascii.eqb c dquote then
      match read_chars r with Some (x, r') => Some (JString x, r') | None => None end
    else if Ascii.eqb c "[" then
      match r with
      | String c' r' =>
          if Ascii.eqb c' "]" then Some (JArray [], r')
          else match read_elements fuel r with
               | Some (l, r'') => Some (JArray l, r'')
               | None => None
               end
      | EmptyString => None
      end
    else if Ascii.eqb c "{" then
      match r with
      | String c' r' =>
          if Ascii.eqb c' "}" then Some (JObject [], r')
          else match read_members fuel r with
               | Some (l, r'') => Some (JObject l, r'')
               | None => None
               end
      | EmptyString => None
      end
    else
      match read_number (String c r) with
      | Some (n, r') => Some (JNum n, r')
      | None => None
      end.
Proof. reflexivity. Qed.

Lemma elems_text_one x : elems_text [x] = default "null" (serialize x).
Proof. reflexivity. Qed.

Lemma elems_text_cons x y l :
  elems_text (x :: y :: l) = default "null" (serialize x) +:+ "," +:+ elems_text (y :: l).
Proof. reflexivity. Qed.

Lemma read_elements_ok l :
  l <> [] -> Forall reads l -> forallb plain l = true ->
  forall rest fuel,
    list_sum (map (fun x => S (size x)) l) <= fuel ->
    read_elements fuel (elems_text l +:+ String "]" rest) = Some (l, rest).
Proof.
  induction l as [|x l IH]; [congruence|]. intros _ Hall Hp rest fuel Hfuel.
  inversion Hall as [|? ? Hx Hl]; subst.
  cbn [forallb] in Hp. apply andb_true_iff in Hp as [Hpx Hpl].
  destruct (Hx Hpx) as (t & Et & _ & _ & Rx).
  cbn [map list_sum fold_right] in Hfuel. destruct fuel as [|fuel]; [lia|].
  destruct l as [|y l'].
  - rewrite elems_text_one, Et. change (default _ (Some t)) with t.
    rewrite read_elements_eq.
    rewrite (Rx (String "]" rest) fuel) by (reflexivity || (cbn in Hfuel; lia)).
    reflexivity.
  - rewrite elems_text_cons, Et. change (default _ (Some t)) with t.
    rewrite string_append_assoc.
    change (("," +:+ ?a) +:+ ?b) with (String "," (a +:+ b)).
    rewrite read_elements_eq.
    rewrite (Rx _ fuel) by (reflexivity || (cbn in Hfuel |- *; lia)).
    change (Ascii.eqb "," "]") with false. change (Ascii.eqb "," ",") with true. cbn iota.
    rewrite (IH ltac:(discriminate) Hl Hpl rest fuel) by (cbn in Hfuel |- *; lia).
    reflexivity.
Qed.

Lemma elems_length l :
  Forall reads l -> forallb plain l = true ->
  list_sum (map (fun x => S (size x)) l) <= String.length (elems_text l) + 1.
Proof.
  induction l as [|x l IH]; intros Hall Hp; [cbn; lia|].
  inversion Hall as [|? ? Hx Hl]; subst.
  cbn [forallb] in Hp. apply andb_true_iff in Hp as [Hpx Hpl].
  destruct (Hx Hpx) as (t & Et & _ & Lx & _). specialize (IH Hl Hpl).
  destruct l as [|y l'].
  - rewrite elems_text_one, Et. change (default _ (Some t)) with t.
    cbn [map list_sum fold_right]. lia.
  - rewrite elems_text_cons, Et. change (default _ (Some t)) with t.
    rewrite !string_length_append. cbn [String.length].
    change (list_sum (map (fun x0 => S (size x0)) (x :: y :: l')))
      with (S (size x) + list_sum (map (fun x0 => S (size x0)) (y :: l'))).
    lia.
Qed.

Lemma members_text_one kv m : member_text kv = Some m -> members_text [kv] = m.
Proof. intros H. unfold members_text. cbn [omap list_omap]. rewrite H. reflexivity. Qed.

Lemma members_text_cons kv kv' ps m m' :
  member_text kv = Some m -> member_text kv' = Some m' ->
  members_text (kv :: kv' :: ps) = m +:+ "," +:+ members_text (kv' :: ps).
Proof.
  intros H H'. unfold members_text. cbn [omap list_omap]. rewrite H, H'. reflexivity.
Qed.

Lemma member_shape k t R :
  (QuoteJSONString k +:+ ":" +:+ t) +:+ R
  = String dquote (quote_body k +:+ String dquote (String ":" (t +:+ R))).
Proof.
  unfold QuoteJSONString.
  change (String dquote (((quote_body k +:+ String dquote EmptyString) +:+ (":" +:+ t)) +:+ R)
          = String dquote (quote_body k +:+ String dquote (String ":" (t +:+ R)))).
  rewrite !string_append_assoc. reflexivity.
Qed.

Lemma ends_number_delim c rest :
  is_digit c = false -> starts_fraction (String c rest) = false ->
  ends_number (String c rest) = true.
Proof. intros H1 H2. cbn [ends_number]. rewrite H1, H2. reflexivity. Qed.

Lemma read_members_ok ps :
  ps <> [] -> Forall (fun kv => reads kv.2) ps ->
  forallb (fun '(k, x) => plain x) ps = true ->
  forall rest fuel,
    list_sum (map (fun '(k, x) => S (size x)) ps) <= fuel ->
    read_members fuel (members_text ps +:+ String "}" rest) = Some (ps, rest).
Proof.
  induction ps as [|[k x] ps IH]; [congruence|]. intros _ Hall Hp rest fuel Hfuel.
  inversion Hall as [|? ? Hx Hl]; subst. cbn [snd] in Hx.
  cbn [forallb] in Hp. apply andb_true_iff in Hp as [Hpx Hpl].
  destruct (Hx Hpx) as (t & Et & _ & _ & Rx).
  assert (member_text (k, x) = Some (QuoteJSONString k +:+ ":" +:+ t)) as Em
    by (cbn [member_text]; rewrite Et; reflexivity).
  change (list_sum (map (fun '(_, x0) => S (size x0)) ((k, x) :: ps)))
    with (S (size x) + list_sum (map (fun '(_, x0) => S (size x0)) ps)) in Hfuel.
  destruct fuel as [|fuel]; [lia|].
  destruct ps as [|[k' y] ps'].
  - rewrite (members_text_one _ _ Em), member_shape, read_members_eq.
    change (Ascii.eqb dquote dquote) with true. cbn iota.
    rewrite read_chars_quote_body. change (Ascii.eqb ":" ":") with true. cbn iota.
    rewrite (Rx (String "}" rest) fuel) by (reflexivity || (cbn in Hfuel; lia)).
    reflexivity.
  - inversion Hl as [|? ? Hy _]; subst. cbn [snd] in Hy.
    pose proof Hpl as Hpl'. cbn [forallb] in Hpl'. apply andb_true_iff in Hpl' as [Hpy _].
    destruct (Hy Hpy) as (t' & Et' & _).
    assert (member_text (k', y) = Some (QuoteJSONString k' +:+ ":" +:+ t')) as Em'
      by (cbn [member_text]; rewrite Et'; reflexivity).
    rewrite (members_text_cons _ _ _ _ _ Em Em').
    rewrite (string_append_assoc _ ("," +:+ _) _), member_shape, read_members_eq.
    change (Ascii.eqb dquote dquote) with true. cbn iota.
    rewrite read_chars_quote_body. change (Ascii.eqb ":" ":") with true. cbn iota.
    change (("," +:+ ?a) +:+ ?b) with (String "," (a +:+ b)).
    rewrite (Rx _ fuel) by (reflexivity || lia).
    change (Ascii.eqb "," "}") with false. change (Ascii.eqb "," ",") with true. cbn iota.
    rewrite (IH ltac:(discriminate) Hl Hpl rest fuel) by lia.
    reflexivity.
Qed.

Lemma members_length ps :
  Forall (fun kv => reads kv.2) ps ->
  forallb (fun '(k, x) => plain x) ps = true ->
  list_sum (map (fun '(k, x) => S (size x)) ps) <= String.length (members_text ps) + 1.
Proof.
  induction ps as [|[k x] ps IH]; intros Hall Hp; [cbn; lia|].
  inversion Hall as [|? ? Hx Hl]; subst. cbn [snd] in Hx.
  cbn [forallb] in Hp. apply andb_true_iff in Hp as [Hpx Hpl].
  destruct (Hx Hpx) as (t & Et & _ & Lx & _). specialize (IH Hl Hpl).
  assert (member_text (k, x) = Some (QuoteJSONString k +:+ ":" +:+ t)) as Em
    by (cbn [member_text]; rewrite Et; reflexivity).
  change (list_sum (map (fun '(_, x0) => S (size x0)) ((k, x) :: ps)))
    with (S (size x) + list_sum (map (fun '(_, x0) => S (size x0)) ps)).
  destruct ps as [|[k' y] ps'].
  - rewrite (members_text_one _ _ Em), !string_length_append.
    cbn [map list_sum fold_right]. lia.
  - inversion Hl as [|? ? Hy _]; subst. cbn [snd] in Hy.
    pose proof Hpl as Hpl'. cbn [forallb] in Hpl'. apply andb_true_iff in Hpl' as [Hpy _].
    destruct (Hy Hpy) as (t' & Et' & _).
    assert (member_text (k', y) = Some (QuoteJSONString k' +:+ ":" +:+ t')) as Em'
      by (cbn [member_text]; rewrite Et'; reflexivity).
    rewrite (members_text_cons _ _ _ _ _ Em Em'), !string_length_append.
    cbn [String.length]. lia.
Qed.

Lemma property_plain k ps x :
  forallb (fun '(k, x) => plain x) ps = true -> property k ps = Some x -> plain x = true.
Proof.
  induction ps as [|[k' y] ps IH]; intros Hp E; [discriminate E|].
  cbn [forallb] in Hp. apply andb_true_iff in Hp as [Hpy Hps].
  cbn [property] in E. destruct (property k ps) as [z|].
  - injection E as ->. apply IH; [assumption | reflexivity].
  - destruct (decide (k' = k)); [|discriminate E]. injection E as ->. exact Hpy.
Qed.

Lemma plain_no_toJSON ps :
  forallb (fun '(k, x) => plain x) ps = true -> calls_toJSON ps = false.
Proof.
  intros Hp. unfold calls_toJSON.
  destruct (property "toJSON" ps) as [x|] eqn:E; [|reflexivity].
  pose proof (property_plain _ _ _ Hp E) as Hx.
  destruct x; try reflexivity. discriminate Hx.
Qed.

Lemma serialize_object ps :
  calls_toJSON ps = false ->
  serialize (JObject ps) = Some ("{" +:+ members_text ps +:+ "}").
Proof. intros H. cbn [serialize]. rewrite H. reflexivity. Qed.

Lemma serialize_array l : serialize (JArray l) = Some ("[" +:+ elems_text l +:+ "]").
Proof. reflexivity. Qed.

Lemma elems_head x l (Hx : reads x) :
  plain x = true ->
  exists c r, elems_text (x :: l) = String c r /\ Ascii.eqb c "]" = false.
Proof.
  intros Hp. destruct (Hx Hp) as (t & Et & (c & r & -> & Hc) & _).
  destruct l as [|y l'].
  - rewrite elems_text_one, Et. eexists _, _. split; [reflexivity | exact Hc].
  - rewrite elems_text_cons, Et. eexists c, _. split; [reflexivity | exact Hc].
Qed.

Lemma members_head k x ps (Hx : reads x) :
  plain x = true -> forallb (fun '(k, x) => plain x) ps = true ->
  Forall (fun kv => reads kv.2) ps ->
  exists r, members_text ((k, x) :: ps) = String dquote r.
Proof.
  intros Hp Hps Hall. destruct (Hx Hp) as (t & Et & _).
  assert (member_text (k, x) = Some (QuoteJSONString k +:+ ":" +:+ t)) as Em
    by (cbn [member_text]; rewrite Et; reflexivity).
  destruct ps as [|[k' y] ps'].
  - rewrite (members_text_one _ _ Em). eexists. reflexivity.
  - inversion Hall as [|? ? Hy _]; subst. cbn [snd] in Hy.
    cbn [forallb] in Hps. apply andb_true_iff in Hps as [Hpy _].
    destruct (Hy Hpy) as (t' & Et' & _).
    assert (member_text (k', y) = Some (QuoteJSONString k' +:+ ":" +:+ t')) as Em'
      by (cbn [member_text]; rewrite Et'; reflexivity).
    rewrite (members_text_cons _ _ _ _ _ Em Em'). eexists. reflexivity.
Qed.

Lemma reads_all v : reads v.
Proof.
  induction v as [| |b|n|s|c|l IHl|ps IHps] using jsval_nested_ind; intros Hp;
    try discriminate Hp.
  - exists "null". split; [reflexivity|]. split; [eexists _, _; split; reflexivity|].
    split; [cbn; lia|]. intros rest [|fuel] _ Hf; [cbn in Hf; lia | reflexivity].
  - exists (if b then "true" else "false"). split; [reflexivity|].
    split; [destruct b; eexists _, _; split; reflexivity|].
    split; [destruct b; cbn; lia|].
    intros rest [|fuel] _ Hf; [cbn in Hf; lia | destruct b; reflexivity].
  - cbn [plain] in Hp. destruct (number_to_string_safe n Hp) as [Hfin Etxt].
    exists (number_to_string n). split; [cbn [serialize]; rewrite Hfin; reflexivity|].
    assert (exists c r, number_to_string n = String c r
                        /\ is_digit c || Ascii.eqb c "-" = true) as (c & r & E & Hc).
    { rewrite Etxt. destruct (n <? 0)%Z.
      - eexists _, _. split; reflexivity.
      - destruct (digits_head (Z.abs n)) as (c & r & -> & Hc).
        exists c, r. split; [reflexivity | rewrite Hc; reflexivity]. }
    destruct (number_head c Hc) as (H1 & H2 & H3 & H4 & H5 & H6 & H7).
    split; [exists c, r; split; assumption|].
    split; [rewrite E; cbn; lia|].
    intros rest [|fuel] Hr Hf; [cbn in Hf; lia|].
    pose proof (read_number_safe n rest Hp Hr) as R. rewrite E in R |- *.
    change (String c r +:+ rest) with (String c (r +:+ rest)) in *.
    rewrite read_value_eq, H1, H2, H3, H4, H5, H6, R. reflexivity.
  - exists (QuoteJSONString s). split; [reflexivity|].
    split; [eexists _, _; split; reflexivity|]. split; [cbn; lia|].
    intros rest [|fuel] _ Hf; [cbn in Hf; lia|].
    unfold QuoteJSONString.
    change (String dquote (quote_body s +:+ String dquote EmptyString) +:+ rest)
      with (String dquote ((quote_body s +:+ String dquote EmptyString) +:+ rest)).
    rewrite string_append_assoc.
    change (String dquote EmptyString +:+ rest) with (String dquote rest).
    rewrite read_value_eq. change (Ascii.eqb dquote "n") with false.
    change (Ascii.eqb dquote "t") with false. change (Ascii.eqb dquote "f") with false.
    change (Ascii.eqb dquote dquote) with true. cbn iota.
    rewrite read_chars_quote_body. reflexivity.
  - cbn [plain] in Hp. exists ("[" +:+ elems_text l +:+ "]").
    split; [apply serialize_array|]. split; [eexists _, _; split; reflexivity|].
    pose proof (elems_length l IHl Hp) as L.
    split.
    { change (size (JArray l)) with (S (list_sum (map (fun x => S (size x)) l))).
      change ("[" +:+ elems_text l +:+ "]") with (String "[" (elems_text l +:+ "]")).
      cbn [String.length]. rewrite string_length_append. cbn [String.length]. lia. }
    intros rest [|fuel] _ Hf; [cbn in Hf; lia|].
    change (size (JArray l)) with (S (list_sum (map (fun x => S (size x)) l))) in Hf.
    change (("[" +:+ elems_text l +:+ "]") +:+ rest)
      with (String "[" ((elems_text l +:+ "]") +:+ rest)).
    rewrite string_append_assoc. change ("]" +:+ rest) with (String "]" rest).
    rewrite read_value_eq. change (Ascii.eqb "[" "n") with false.
    change (Ascii.eqb "[" "t") with false. change (Ascii.eqb "[" "f") with false.
    change (Ascii.eqb "[" dquote) with false. change (Ascii.eqb "[" "[") with true.
    cbn iota.
    destruct l as [|x l']; [reflexivity|].
    inversion IHl as [|? ? Hx _]; subst.
    pose proof Hp as Hp'. cbn [forallb] in Hp'. apply andb_true_iff in Hp' as [Hpx _].
    destruct (elems_head x l' Hx Hpx) as (c & r & E & Hc).
    pose proof (read_elements_ok (x :: l') ltac:(discriminate) IHl Hp rest fuel
                  ltac:(lia)) as R.
    rewrite E in R |- *. change (String c r +:+ ?a) with (String c (r +:+ a)) in *.
    cbn beta iota. rewrite Hc, R. reflexivity.
  - cbn [plain] in Hp. pose proof (plain_no_toJSON ps Hp) as Hno.
    exists ("{" +:+ members_text ps +:+ "}").
    split; [apply serialize_object, Hno|]. split; [eexists _, _; split; reflexivity|].
    pose proof (members_length ps IHps Hp) as L.
    split.
    { change (size (JObject ps)) with (S (list_sum (map (fun '(_, x) => S (size x)) ps))).
      change ("{" +:+ members_text ps +:+ "}") with (String "{" (members_text ps +:+ "}")).
      cbn [String.length]. rewrite string_length_append. cbn [String.length]. lia. }
    intros rest [|fuel] _ Hf; [cbn in Hf; lia|].
    change (size (JObject ps)) with (S (list_sum (map (fun '(_, x) => S (size x)) ps))) in Hf.
    change (("{" +:+ members_text ps +:+ "}") +:+ rest)
      with (String "{" ((members_text ps +:+ "}") +:+ rest)).
    rewrite string_append_assoc. change ("}" +:+ rest) with (String "}" rest).
    rewrite read_value_eq. change (Ascii.eqb "{" "n") with false.
    change (Ascii.eqb "{" "t") with false. change (Ascii.eqb "{" "f") with false.
    change (Ascii.eqb "{" dquote) with false. change (Ascii.eqb "{" "[") with false.
    change (Ascii.eqb "{" "{") with true. cbn iota.
    destruct ps as [|[k x] ps']; [reflexivity|].
    inversion IHps as [|? ? Hx Hl]; subst. cbn [snd] in Hx.
    pose proof Hp as Hp'. cbn [forallb] in Hp'. apply andb_true_iff in Hp' as [Hpx Hps].
    destruct (members_head k x ps' Hx Hpx Hps Hl) as (r & E).
    pose proof (read_members_ok ((k, x) :: ps') ltac:(discriminate) IHps Hp rest fuel
                  ltac:(lia)) as R.
    rewrite E in R |- *. change (String dquote r +:+ ?a) with (String dquote (r +:+ a)) in *.
    change (Ascii.eqb dquote "}") with false. cbn iota. rewrite R. reflexivity.
Qed.

Lemma serialize_read_back v :
  plain v = true -> exists t, serialize v = Some t /\ JSON_read t = Some v.
Proof.
  intros Hp. destruct (reads_all v Hp) as (t & Et & _ & L & R).
  exists t. split; [exact Et|]. unfold JSON_read.
  pose proof (R EmptyString (S (String.length t)) eq_refl ltac:(lia)) as R'.
  rewrite string_append_nil_r in R'. rewrite R'. reflexivity.
Qed.

Example read_back_example :
  JSON_read ("{" +:+ QuoteJSONString "a" +:+ ":-12," +:+ QuoteJSONString "b"
             +:+ ":[null,true," +:+ QuoteJSONString "x" +:+ "]}")
  = Some (JObject [("a", JNum (-12)); ("b", JArray [JNull; JBool true; JString "x"])]).
Proof. vm_compute. reflexivity. Qed.

Example large_numbers_example :
  JSON_stringify (JArray [JNum (10 ^ 21); JNum (2 ^ 64); JNum (2 ^ 53 + 1); JNum (2 ^ 1024)])
  = JString "[1e+21,18446744073709552000,9007199254740992,null]".
Proof. vm_compute. reflexivity. Qed.




(** *** Reset and the options store *)

(** C10.  [reset()] empties the options store: whatever calls, [init]
    included, came before it, a following [init(o)] merges [o] into an
    empty store, and [self], the slots and what [exec()] would send are
    those of [init(o)] on a freshly loaded module: nothing set before the
    reset comes back. *)
Theorem reset_empties_options_store (C0 : Binding.t) (ops : list op) (o : jsval) :
  let before := after ops (module_init C0) in
  let w := after [Reset; Init o] before in
  Self.options (self (after [Reset] before)) = ∅
  /\ Self.options (self w) = Object_assign ∅ o
  /\ (forall k, Self.options (self w) !! k = assoc_last k (own_enumerable o))
  /\ self w = self (after [Init o] (module_init C0))
  /\ C w = C (after [Init o] (module_init C0))
  /\ (forall f, sent f w = sent f (after [Init o] (module_init C0))).
Proof.
  cbn zeta. rewrite !after_cons, !after_nil, step_reset, module_init_eq.
  rewrite !step_init. cbn zeta. cbn [self Self.options C].
  split; [reflexivity|]. split; [reflexivity|]. split.
  { intros k. unfold Object_assign. rewrite assign_lookup, lookup_empty.
    destruct (assoc_last k (own_enumerable o)); reflexivity. }
  split; [reflexivity|]. split; [reflexivity|].
  intros f. rewrite !sent_bridged. reflexivity.
Qed.

(* ===================================================================== *)
(** ** Further properties of the wrapper *)
(* ===================================================================== *)

(** *** Steps, one by one *)

Lemma step_exec w : step Exec w = mk_world (self w) (C w) (ccalls w ++ [call_of w]).
Proof. reflexivity. Qed.

Lemma step_ccalls o w :
  ccalls (step o w) = (ccalls w ++ (if is_exec o then [call_of w] else []))%list.
Proof. destruct o; cbn [is_exec]; rewrite ?app_nil_r; reflexivity. Qed.

Lemma step_setter_options o w :
  is_setter o = true -> Self.options (self (step o w)) = Self.options (self w).
Proof. destruct o; intros H; try discriminate H; reflexivity. Qed.

Lemma step_setter_ccalls o w : is_setter o = true -> ccalls (step o w) = ccalls w.
Proof. destruct o; intros H; try discriminate H; reflexivity. Qed.

(** [self] and the slots evolve without reading the log. *)
Lemma step_ignores_log o w w' :
  self w = self w' -> C w = C w' ->
  self (step o w) = self (step o w') /\ C (step o w) = C (step o w').
Proof.
  destruct w as [s c l], w' as [s' c' l']. cbn [self C]. intros <- <-.
  destruct o;
    try (rewrite !step_init; cbn zeta; cbn [self C Self.options]; split; reflexivity);
    split; reflexivity.
Qed.

Lemma after_ignores_log ops : forall w w',
  self w = self w' -> C w = C w' ->
  self (after ops w) = self (after ops w') /\ C (after ops w) = C (after ops w').
Proof.
  induction ops as [|o rest IH]; intros w w' Hs Hc; [split; assumption|].
  rewrite !after_cons. destruct (step_ignores_log o w w' Hs Hc) as [Hs' Hc'].
  apply IH; assumption.
Qed.

(** *** The fluent interface *)

(** X1.  Every method returns its receiver: a chain of any length,
    started on any handle, evaluates to that handle, and the state it
    leaves does not depend on the handle. *)
Theorem chain_is_fluent {T : Type} (this : T) (ops : list op) (w : world) :
  chain this ops w = (this, after ops w).
Proof.
  revert w. induction ops as [|o rest IH]; intros w; [reflexivity|].
  rewrite after_cons. cbn [chain]. unfold bind.
  pose proof (invoke_receiver this o w) as R.
  pose proof (invoke_world this o w) as W.
  destruct (invoke this o w) as [h w']. cbn [fst snd] in R, W. subst h w'.
  apply IH.
Qed.

(** *** The log of foreign calls *)

(** X2.  Only [exec()] crosses the boundary: a chain leaves the calls
    logged before it in place and appends one call per [exec()] in it;
    setters, [init] and [reset] append none. *)
Theorem one_call_per_exec (ops : list op) (w : world) :
  exists issued,
    ccalls (after ops w) = (ccalls w ++ issued)%list
    /\ length issued = length (filter (fun o => is_exec o = true) ops).
Proof.
  revert w. induction ops as [|o rest IH]; intros w.
  - exists []. rewrite after_nil, app_nil_r. split; reflexivity.
  - rewrite after_cons. destruct (IH (step o w)) as (issued & E & L).
    rewrite step_ccalls in E.
    exists ((if is_exec o then [call_of w] else []) ++ issued)%list.
    rewrite app_assoc. split; [exact E|].
    rewrite length_app, L. destruct o; reflexivity.
Qed.

Lemma shaped_call_of w :
  text_or_absent (Self.keys (self w)) = true -> shaped (call_of w).
Proof.
  intros Hk. repeat split. eexists _, _, _, _, _. split; [reflexivity|].
  cbn [bridged].
  split; [destruct (Self.conf (self w)); discriminate|].
  split; [destruct (Self.keys (self w)); discriminate|].
  split; [destruct (Self.data (self w)); discriminate|].
  split; [destruct (Self.verbosity (self w)); discriminate|].
  apply (bridged_keys_text _ Hk).
Qed.

Lemma after_shaped ops : forall w,
  text_or_absent (Self.keys (self w)) = true ->
  Forall shaped (ccalls w) ->
  Forall shaped (ccalls (after ops w)).
Proof.
  induction ops as [|o rest IH]; intros w Hk Hl; [exact Hl|].
  rewrite after_cons. apply IH; [apply step_keys_text, Hk|].
  rewrite step_ccalls. apply Forall_app. split; [exact Hl|].
  destruct (is_exec o); [|constructor].
  constructor; [apply shaped_call_of, Hk | constructor].
Qed.

(** X3.  Every foreign call the loaded module ever issues is
    [zenroom_exec] with return type [number], the argument types
    [string], [string], [string], [string], [number] and five arguments;
    configuration, keys, data and verbosity are never [undefined], and the
    keys are text or [null]. *)
Theorem every_call_is_shaped (C0 : Binding.t) (ops : list op) :
  Forall shaped (ccalls (after ops (module_init C0))).
Proof. apply after_shaped; [reflexivity | constructor]. Qed.

(** X4.  [exec()] is transparent to the configuration: dropping the
    [exec()] calls from a chain leaves the same [self] and the same slots
    of [C]. *)
Theorem exec_leaves_configuration (ops : list op) (w : world) :
  let quiet := filter (fun o => is_exec o = false) ops in
  self (after ops w) = self (after quiet w)
  /\ C (after ops w) = C (after quiet w).
Proof.
  cbn zeta. revert w. induction ops as [|o rest IH]; intros w; [split; reflexivity|].
  rewrite after_cons. destruct (IH (step o w)) as [Hs Hc]. rewrite Hs, Hc.
  destruct o; try (rewrite filter_cons_True by reflexivity; rewrite after_cons;
                   split; reflexivity).
  rewrite filter_cons_False by discriminate.
  apply after_ignores_log; reflexivity.
Qed.

(** *** How setters compose *)

(** X5.  Two setters that assign different properties of [self] commute:
    the whole state is the same in either order. *)
Theorem setters_commute (o1 o2 : op) (w : world) :
  is_setter o1 = true ->
  is_setter o2 = true ->
  assigns o1 <> assigns o2 ->
  after [o1; o2] w = after [o2; o1] w.
Proof.
  intros H1 H2 Hne. rewrite !after_cons, !after_nil.
  destruct o1; try discriminate H1; destruct o2; try discriminate H2;
    try reflexivity; exfalso; apply Hne; reflexivity.
Qed.

Lemma setters_commute_witness :
  after [Keys (JObject [("a", JNum 1)]); Success (JFun (Host 3))] (module_init C_blank)
  = after [Success (JFun (Host 3)); Keys (JObject [("a", JNum 1)])] (module_init C_blank).
Proof.
  apply (setters_commute (Keys (JObject [("a", JNum 1)])) (Success (JFun (Host 3)))
           (module_init C_blank)).
  - reflexivity.
  - reflexivity.
  - discriminate.
Defined.

(** X6.  A setter overwrites what an earlier call of the same setter
    left: the earlier call has no effect on the state. *)
Theorem setter_overwrites (o1 o2 : op) (w : world) :
  is_setter o1 = true ->
  assigns o1 = assigns o2 ->
  after [o1; o2] w = after [o2] w.
Proof.
  intros H1 He. rewrite !after_cons, !after_nil.
  destruct o1; try discriminate H1; destruct o2; try discriminate He; reflexivity.
Qed.

Lemma setter_overwrites_witness :
  after [Print (JFun (Host 1)); Print (JFun (Host 2))] (module_init C_blank)
  = after [Print (JFun (Host 2))] (module_init C_blank).
Proof.
  apply (setter_overwrites (Print (JFun (Host 1))) (Print (JFun (Host 2)))
           (module_init C_blank)).
  - reflexivity.
  - reflexivity.
Defined.

(** *** How [init] composes *)

Lemma after_setters_options ops : forall w,
  Forall (fun o => is_setter o = true) ops ->
  Self.options (self (after ops w)) = Self.options (self w)
  /\ ccalls (after ops w) = ccalls w.
Proof.
  induction ops as [|o rest IH]; intros w Hall; [split; reflexivity|].
  inversion Hall as [|? ? Ho Hrest]; subst.
  rewrite after_cons. destruct (IH (step o w) Hrest) as [-> ->].
  split; [apply step_setter_options, Ho | apply step_setter_ccalls, Ho].
Qed.

Lemma step_init_depends w w' options :
  Self.options (self w) = Self.options (self w') ->
  ccalls w = ccalls w' ->
  step (Init options) w = step (Init options) w'.
Proof. intros Ho Hc. rewrite !step_init. cbn zeta. rewrite Ho, Hc. reflexivity. Qed.

(** X7.  [init] rebuilds every field and hook from the options store:
    what setters wrote before it is dropped.  A chain of setters followed
    by [init(o)] leaves the state of [init(o)] alone. *)
Theorem init_discards_setters (ops : list op) (o : jsval) (w : world) :
  Forall (fun x => is_setter x = true) ops ->
  after (ops ++ [Init o]) w = after [Init o] w.
Proof.
  intros Hall. rewrite after_app, !after_cons, !after_nil.
  destruct (after_setters_options ops w Hall) as [Ho Hc].
  apply step_init_depends; assumption.
Qed.

Lemma init_discards_setters_witness :
  after ([Zencode (JString "print(1)"); Verbosity (JNum 2); Error (JFun (Host 4))]
           ++ [Init (JObject [("conf", JString "umm")])]) (module_init C_blank)
  = after [Init (JObject [("conf", JString "umm")])] (module_init C_blank).
Proof.
  apply (init_discards_setters
           [Zencode (JString "print(1)"); Verbosity (JNum 2); Error (JFun (Host 4))]
           (JObject [("conf", JString "umm")]) (module_init C_blank)).
  repeat constructor.
Defined.

Lemma assign_twice (m : gmap string jsval) o :
  Object_assign (Object_assign m o) o = Object_assign m o.
Proof.
  apply map_eq. intros k. unfold Object_assign. rewrite !assign_lookup.
  destruct (assoc_last k (own_enumerable o)); reflexivity.
Qed.

(** X8.  [init] is idempotent: a second [init] with the same argument, or
    with none, changes nothing. *)
Theorem init_idempotent (o : jsval) (w : world) :
  after [Init o; Init o] w = after [Init o] w
  /\ after [Init o; Init JUndefined] w = after [Init o] w.
Proof.
  rewrite !after_cons, !after_nil. split.
  - rewrite (step_init o (step (Init o) w)). cbn zeta.
    rewrite step_init_options, assign_twice. rewrite (step_init o w). reflexivity.
  - rewrite (step_init JUndefined (step (Init o) w)). cbn zeta.
    rewrite step_init_options. rewrite (step_init o w). reflexivity.
Qed.

(** X9.  Two [init] calls in a row amount to one [init] with the
    properties of the first object followed by those of the second: the
    second object wins where both name a property. *)
Theorem init_twice_is_merge (p1 p2 : list (string * jsval)) (w : world) :
  after [Init (JObject p1); Init (JObject p2)] w = after [Init (JObject (p1 ++ p2))] w
  /\ (forall k,
        Self.options (self (after [Init (JObject p1); Init (JObject p2)] w)) !! k
        = match assoc_last k p2 with
          | Some v => Some v
          | None => match assoc_last k p1 with
                    | Some v => Some v
                    | None => Self.options (self w) !! k
                    end
          end).
Proof.
  rewrite !after_cons, !after_nil.
  assert (Object_assign (Object_assign (Self.options (self w)) (JObject p1)) (JObject p2)
          = Object_assign (Self.options (self w)) (JObject (p1 ++ p2))) as E.
  { unfold Object_assign. cbn [own_enumerable]. rewrite fold_left_app. reflexivity. }
  split.
  - rewrite (step_init (JObject p2) (step (Init (JObject p1)) w)). cbn zeta.
    rewrite step_init_options, E. rewrite (step_init (JObject (p1 ++ p2)) w).
    reflexivity.
  - intros k. rewrite !step_init_options. unfold Object_assign. cbn [own_enumerable].
    rewrite !assign_lookup. reflexivity.
Qed.

Lemma init_sent (o : jsval) (w : world) (f : field) :
  sent f (after [Init o] w)
  = Some (if truthy (get (field_name f) (Object_assign (Self.options (self w)) o))
          then bridged f (stored_as f
                 (get (field_name f) (Object_assign (Self.options (self w)) o)))
          else documented_default f).
Proof.
  rewrite sent_bridged, after_cons, after_nil, step_init. cbn zeta.
  destruct f; cbn [field_name stored self Self.zencode Self.conf Self.keys Self.data
                   Self.verbosity bridged stored_as documented_default];
    unfold or;
    destruct (truthy (get _ (Object_assign (Self.options (self w)) o))) eqn:E;
    rewrite ?E; try reflexivity.
Qed.

(** X10.  What [init] makes of a payload option: a truthy value of the
    merged store is used (serialized, for the keys), a falsy or missing one
    is replaced by the default, so that [exec()] sends the empty string,
    [null], [null], [null] or [1].  In particular a verbosity of [0] or an
    empty configuration given to [init] is not kept. *)
Theorem init_resolves_payload (o : jsval) (w : world) (f : field) :
  let v := get (field_name f) (Object_assign (Self.options (self w)) o) in
  sent f (after [Init o] w)
  = Some (if truthy v then bridged f (stored_as f v) else documented_default f).
Proof. cbn zeta. apply init_sent. Qed.

(** *** Hooks: defaults and missing validation *)

(** X11.  A hook option that is missing or falsy in the merged store makes
    [init] install its own default: fired by the engine, the output hook
    logs its text to the console, the success and failure hooks do
    nothing. *)
Theorem init_defaults_hooks (o : jsval) (w : world) (h : hook) (actuals : list jsval) :
  truthy (get (hook_name h) (Object_assign (Self.options (self w)) o)) = false ->
  hooked h (self (after [Init o] w)) = init_fallback h
  /\ fire h (after [Init o] w) actuals = default_effect h actuals.
Proof.
  intros Hv. rewrite after_cons, after_nil, step_init. cbn zeta.
  destruct h; cbn [hook_name] in Hv; cbn; unfold or; rewrite Hv; split; reflexivity.
Qed.

Lemma init_defaults_hooks_witness :
  hooked Succeeded
    (self (after [Init (JObject [("success", JNull); ("zencode", JString "s")])]
                 (module_init C_blank)))
  = init_fallback Succeeded
  /\ fire Succeeded
       (after [Init (JObject [("success", JNull); ("zencode", JString "s")])]
              (module_init C_blank)) [JNum 0]
     = default_effect Succeeded [JNum 0].
Proof.
  apply (init_defaults_hooks (JObject [("success", JNull); ("zencode", JString "s")])
           (module_init C_blank) Succeeded [JNum 0]).
  reflexivity.
Defined.

(** X12.  The hook setters check nothing: a value that is not a function
    is stored as it is (not replaced by a default, even when falsy), and
    the failure only shows when the engine fires the slot, as a
    [TypeError]. *)
Theorem hook_setters_do_not_validate
    (h : hook) (v : jsval) (w : world) (actuals : list jsval) :
  is_function v = false ->
  hooked h (self (after [register h v] w)) = v
  /\ fire h (after [register h v] w) actuals = TypeError.
Proof.
  intros Hv. rewrite after_cons, after_nil.
  destruct h; (split; [reflexivity|]); destruct v; try discriminate Hv; reflexivity.
Qed.

Lemma hook_setters_do_not_validate_witness :
  hooked Output (self (after [register Output JNull] (module_init C_blank))) = JNull
  /\ fire Output (after [register Output JNull] (module_init C_blank)) [JString "hello"]
     = TypeError.
Proof.
  apply (hook_setters_do_not_validate Output JNull (module_init C_blank)
           [JString "hello"]).
  reflexivity.
Defined.

(** *** Keys and data at the edges *)

(** X13.  [keys] with a falsy argument ([undefined], [null], [false], [0],
    the empty string) stores [null], and [null] is what [exec()] sends. *)
Theorem keys_falsy_is_null (a : jsval) (w : world) :
  truthy a = false ->
  Self.keys (self (after [Keys a] w)) = JNull
  /\ sent FKeys (after [Keys a] w) = Some JNull.
Proof.
  intros Ha. rewrite sent_bridged, after_cons, after_nil. cbn. rewrite Ha.
  split; reflexivity.
Qed.

Lemma keys_falsy_is_null_witness :
  Self.keys (self (after [Keys (JNum 0)] (module_init C_blank))) = JNull
  /\ sent FKeys (after [Keys (JNum 0)] (module_init C_blank)) = Some JNull.
Proof. apply (keys_falsy_is_null (JNum 0) (module_init C_blank)). reflexivity. Defined.


Lemma quote_char_length c : 1 <= String.length (quote_char c).
Proof. unfold quote_char. repeat case_decide; cbn; lia. Qed.

Lemma quote_body_length s : String.length s <= String.length (quote_body s).
Proof.
  induction s as [|c s IH]; [reflexivity|].
  cbn [quote_body String.length]. rewrite string_length_append.
  pose proof (quote_char_length c). lia.
Qed.

Lemma QuoteJSONString_length s :
  String.length s + 2 <= String.length (QuoteJSONString s).
Proof.
  change (QuoteJSONString s)
    with (String dquote EmptyString +:+ (quote_body s +:+ String dquote EmptyString)).
  rewrite !string_length_append.
  pose proof (quote_body_length s). cbn [String.length]. lia.
Qed.

(** X14.  [keys] serializes whatever is truthy, not only objects: a
    non-empty string is stored JSON-quoted, so it is at least two
    characters longer than the argument and never the argument itself; a
    function has no JSON text, [self.keys] becomes [undefined] and
    [exec()] sends [null]. *)
Theorem keys_of_string_or_function (c : ascii) (r : string) (fn : closure) (w : world) :
  let s := String c r in
  Self.keys (self (after [Keys (JString s)] w)) = JString (QuoteJSONString s)
  /\ String.length s + 2 <= String.length (QuoteJSONString s)
  /\ sent FKeys (after [Keys (JString s)] w) <> Some (JString s)
  /\ Self.keys (self (after [Keys (JFun fn)] w)) = JUndefined
  /\ sent FKeys (after [Keys (JFun fn)] w) = Some JNull.
Proof.
  cbn zeta. pose proof (QuoteJSONString_length (String c r)) as L.
  split; [reflexivity|]. split; [exact L|].
  split; [|split; [reflexivity | rewrite sent_bridged; reflexivity]].
  rewrite sent_bridged, after_cons, after_nil.
  change (Some (JString (QuoteJSONString (String c r))) <> Some (JString (String c r))).
  intros E.
  assert (QuoteJSONString (String c r) = String c r) as E' by congruence.
  rewrite E' in L. lia.
Qed.

(** X15.  Unlike the keys, the data are not serialized: an object or array
    given to [data], or as the [data] option of [init], is the very value
    [exec()] passes for the [string] data argument. *)
Theorem data_sent_unserialized (v : jsval) (w : world) :
  is_structured v = true ->
  sent FData (after [Data v] w) = Some v
  /\ sent FData (after [Init (JObject [("data", v)])] w) = Some v
  /\ sent FKeys (after [Keys v] w) <> Some v.
Proof.
  intros Hv. split; [|split].
  - rewrite sent_bridged. destruct v; try discriminate Hv; reflexivity.
  - rewrite init_sent. cbn [field_name].
    unfold Object_assign, get, put. cbn [own_enumerable fold_left fst snd].
    rewrite lookup_insert_eq.
    destruct v; try discriminate Hv; reflexivity.
  - rewrite sent_bridged, after_cons, after_nil. cbn.
    rewrite (structured_truthy v Hv). unfold JSON_stringify.
    destruct (serialize v); destruct v; try discriminate Hv; discriminate.
Qed.

Lemma data_sent_unserialized_witness :
  sent FData (after [Data (JObject [("a", JNum 1)])] (module_init C_blank))
    = Some (JObject [("a", JNum 1)])
  /\ sent FData (after [Init (JObject [("data", JObject [("a", JNum 1)])])]
                       (module_init C_blank))
    = Some (JObject [("a", JNum 1)])
  /\ sent FKeys (after [Keys (JObject [("a", JNum 1)])] (module_init C_blank))
    <> Some (JObject [("a", JNum 1)]).
Proof.
  apply (data_sent_unserialized (JObject [("a", JNum 1)]) (module_init C_blank)).
  reflexivity.
Defined.

(** *** [__setup] and the loading of the module *)

Lemma or_default_twice a d : truthy d = true -> or (or a d) d = or a d.
Proof. intros Hd. unfold or. destruct (truthy a) eqn:E; rewrite ?E, ?Hd; reflexivity. Qed.

Lemma or_default_truthy a d : truthy d = true -> truthy (or a d) = true.
Proof. intros Hd. unfold or. destruct (truthy a) eqn:E; assumption. Qed.

(** X16.  [__setup] keeps a truthy hook that is already on [self] and puts
    the default in place of a missing or falsy one; it rewrites the three
    slots of [C] to match, touches neither the payload, the options store
    nor the log, and running it again changes nothing. *)
Theorem setup_installs_missing_hooks (w : world) :
  let w' := snd (__setup w) in
  wired w'
  /\ (forall h, hooked h (self w') = or (hooked h (self w)) (factory h))
  /\ (forall h, truthy (hooked h (self w')) = true)
  /\ (forall f, stored f (self w') = stored f (self w))
  /\ Self.options (self w') = Self.options (self w)
  /\ ccalls w' = ccalls w
  /\ snd (__setup w') = w'.
Proof.
  cbn zeta. split; [repeat split|]. split; [intros h; destruct h; reflexivity|].
  split.
  { intros h. destruct h; apply or_default_truthy; reflexivity. }
  split; [intros f; destruct f; reflexivity|].
  split; [reflexivity|]. split; [reflexivity|].
  cbv [__setup bind read_self print success error update_self update_C ret snd
       self C ccalls Self.set_print Self.set_success Self.set_error
       Binding.set_print Binding.set_exec_ok Binding.set_exec_error
       Self.options Self.zencode Self.keys Self.conf Self.data Self.print
       Self.success Self.error Self.verbosity Binding.print Binding.exec_ok
       Binding.exec_error].
  rewrite !or_default_twice by reflexivity. reflexivity.
Qed.

(** X17.  Loading the module overwrites whatever the binding's slots held:
    the loaded state does not depend on them, no foreign call has been
    issued, the options store is empty, and every hook fired by the engine
    behaves as the default. *)
Theorem module_load_installs_defaults (C0 C0' : Binding.t) (h : hook) (actuals : list jsval) :
  module_init C0 = module_init C0'
  /\ wired (module_init C0)
  /\ ccalls (module_init C0) = []
  /\ Self.options (self (module_init C0)) = ∅
  /\ hooked h (self (module_init C0)) = factory h
  /\ fire h (module_init C0) actuals = default_effect h actuals.
Proof.
  rewrite !module_init_eq. split; [reflexivity|]. split; [repeat split|].
  split; [reflexivity|]. split; [reflexivity|].
  destruct h; split; reflexivity.
Qed.

(** X18.  After [reset()], whatever was configured before, [exec()]
    sends no script: the arguments are [undefined], [null], [null],
    [null], [1], and the call is still issued. *)
Theorem reset_then_exec_sends_blank (ops : list op) (w : world) :
  dispatched (after (ops ++ [Reset]) w)
    = Some [JUndefined; JNull; JNull; JNull; JNum 1]
  /\ ccalls (after (ops ++ [Reset; Exec]) w)
     = (ccalls (after ops w)
        ++ [mk_ccall "zenroom_exec" "number"
              ["string"; "string"; "string"; "string"; "number"]
              [JUndefined; JNull; JNull; JNull; JNum 1]])%list.
Proof.
  rewrite !after_app, !after_cons, !after_nil, step_reset. split.
  - unfold dispatched. rewrite step_exec. cbn [ccalls]. rewrite last_snoc. reflexivity.
  - rewrite step_exec. reflexivity.
Qed.
